(** * Bring-up of the multi-process packet server: [src/primary/init.c]

    A shallow embedding of [init_mbuf_pools], [init_shm_rings] and [init],
    and the properties of the bring-up protocol proved about them.

    The C code works on three process globals ([clients], [pktmbuf_pool],
    [ports]), reads the global [num_clients] of [args.h], and calls into the
    DPDK libraries and into sibling translation units.  The embedding is a
    small monad that threads the globals and the memory they point to,
    records every external call in a trace, and stops at [rte_exit]. *)

From Stdlib Require Import ZArith List String Bool Lia DecimalString Sorted.

Import ListNotations.

Open Scope string_scope.

Open Scope list_scope.

Open Scope Z_scope.

(** ** Data *)

(** A valid address.  A C pointer is an [option]: [None] is [NULL]. *)
Definition loc := Z.

(** [enum rte_proc_type_t], the two values the source tests. *)
Inductive rte_proc_type_t := RTE_PROC_PRIMARY | RTE_PROC_SECONDARY.

Definition proc_type_eqb (a b : rte_proc_type_t) : bool :=
  match a, b with
  | RTE_PROC_PRIMARY, RTE_PROC_PRIMARY => true
  | RTE_PROC_SECONDARY, RTE_PROC_SECONDARY => true
  | _, _ => false
  end.

(** Opaque handles of the DPDK libraries. *)
Inductive rte_mempool := Mempool (id : Z).

Inductive rte_ring := Ring (id : Z).

(** [struct rte_memzone]: only the field [addr] is read.  A zone the
    facility hands out has its memory: [addr] is a valid address, as the
    source takes it to be when it passes [mz->addr] to [memset]. *)
Record rte_memzone := { addr : loc }.

(** [struct client] of [init.h]: only the field [rx_q] is written. *)
Record client := { rx_q : option rte_ring }.

(** Modelled from the spec: [struct port_info] lives in the absent
    [common.h]; the spec gives it as [num_ports : u16] and [ids], an ordered
    sequence of port identifiers. *)
Record port_info := { num_ports : Z; id : list Z }.

(** [EXIT_FAILURE] of [stdlib.h]. *)
Definition EXIT_FAILURE : Z := 1.

(** [#define CLIENT_QUEUE_RINGSIZE 128] *)
Definition CLIENT_QUEUE_RINGSIZE : Z := 128.

(** Widths of [unsigned int] and [size_t]. *)
Definition UINT_MODULUS : Z := 2 ^ 32.

Definition SIZE_MODULUS : Z := 2 ^ 64.

(** Constants, sizes and inline helpers of headers that are not part of
    [init.c] ([common.h], [rte_ring.h], ...): taken as parameters. *)
Record platform := {
  MBUFS_PER_CLIENT : Z;
  MBUFS_PER_PORT : Z;
  MBUF_SIZE : Z;
  MBUF_CACHE_SIZE : Z;
  NO_FLAGS : Z;
  PKTMBUF_POOL_NAME : string;
  MZ_PORT_INFO : string;
  RING_F_SP_ENQ : Z;
  RING_F_SC_DEQ : Z;
  sizeof_client : Z;
  sizeof_port_info : Z;
  sizeof_pktmbuf_pool_private : Z;
  get_rx_queue_name : Z -> string;
  (** the view of the bytes of the port-info region as a [struct port_info] *)
  port_info_of_bytes : list Z -> port_info
}.

(** The external collaborators, as oracles: what each call returns for the
    arguments it gets.  [parse_app_args] ([args.c]) fills the port table
    through the global [ports] and sets [num_clients]: it gets the bytes of
    the region and returns its status, the new bytes and [num_clients]. *)
Record environment := {
  rte_eal_init : Z -> list string -> Z;
  rte_eal_process_type : rte_proc_type_t;
  rte_eth_dev_count : Z;
  rte_socket_id : Z;
  rte_memzone_lookup : string -> option rte_memzone;
  rte_memzone_reserve : string -> Z -> Z -> Z -> option rte_memzone;
  parse_app_args : Z -> Z -> list string -> list Z -> Z * list Z * Z;
  rte_mempool_lookup : string -> option rte_mempool;
  rte_mempool_create :
    string -> Z -> Z -> Z -> Z -> Z -> Z -> option rte_mempool;
  init_port : Z -> option rte_mempool -> Z;
  rte_malloc : string -> Z -> Z -> option loc;
  (** what an allocated, not yet written, client record holds *)
  uninitialised : Z -> client;
  rte_ring_lookup : string -> option rte_ring;
  rte_ring_create : string -> Z -> Z -> Z -> option rte_ring
}.

(** The external calls an execution makes, with arguments and result. *)
Inductive event :=
| EvEalInit (argc : Z) (ret : Z)
| EvMemzoneLookup (name : string) (mz : option rte_memzone)
| EvMemzoneReserve (name : string) (len socket flags : Z)
    (mz : option rte_memzone)
| EvMemset (dst : loc) (c : Z) (n : Z)
| EvParseAppArgs (total_ports argc : Z) (region : list Z) (ret : Z)
| EvLog (fmt : string) (name : string) (n : Z)
| EvMempoolLookup (name : string) (mp : option rte_mempool)
| EvMempoolCreate (name : string)
    (n elt_size cache_size priv_size socket flags : Z)
    (mp : option rte_mempool)
| EvInitPort (port : Z) (mp : option rte_mempool) (ret : Z)
| EvCheckLinks (table : option loc) (port_num : Z) (mask : Z)
| EvMalloc (type : string) (size align : Z) (p : option loc)
| EvRingLookup (name : string) (r : option rte_ring)
| EvRingCreate (name : string) (count socket flags : Z)
    (r : option rte_ring)
| EvExit (code : Z) (fmt : string) (args : list Z).

(** The globals of [init.c], [num_clients] of [args.h], and the memory the
    pointers lead to: the bytes of the shared regions and the records of the
    allocated client arrays. *)
Record state := mkState {
  clients : option loc;
  pktmbuf_pool : option rte_mempool;
  ports : option loc;
  num_clients : Z;
  shm : loc -> list Z;
  client_mem : loc -> list client
}.



(** ** The monad: state, trace of external calls, and process exit *)

Inductive outcome (A : Type) :=
| Returned (a : A)      (* the function returned [a] *)
| Exited (code : Z)     (* [rte_exit] ended the process *)
| Fault.                (* a NULL pointer was dereferenced *)
Arguments Returned {A} a.

Arguments Exited {A} code.

Arguments Fault {A}.

Definition M (A : Type) : Type := state -> list event * state * outcome A.

Definition ret {A} (a : A) : M A := fun s => ([], s, Returned a).

Definition bind {A B} (m : M A) (f : A -> M B) : M B :=
  fun s =>
    match m s with
    | (t1, s1, Returned a) =>
        match f a s1 with (t2, s2, o) => (t1 ++ t2, s2, o) end
    | (t1, s1, Exited c) => (t1, s1, Exited c)
    | (t1, s1, Fault) => (t1, s1, Fault)
    end.

Notation "x <- m ;; k" := (bind m (fun x => k))
  (at level 61, m at next level, right associativity).

Notation "m ;;; k" := (bind m (fun _ => k))
  (at level 61, right associativity).

Definition emit (e : event) : M unit := fun s => ([e], s, Returned tt).

Definition get : M state := fun s => ([], s, Returned s).

Definition put (s' : state) : M unit := fun _ => ([], s', Returned tt).

Definition fault {A} : M A := fun s => ([], s, Fault).

(** [rte_exit(code, fmt, ...)] does not return. *)
Definition rte_exit {A} (code : Z) (fmt : string) (args : list Z) : M A :=
  fun s => ([EvExit code fmt args], s, Exited code).

Definition trace_of {A} (r : list event * state * outcome A) : list event :=
  fst (fst r).

Definition state_of {A} (r : list event * state * outcome A) : state :=
  snd (fst r).

Definition outcome_of {A} (r : list event * state * outcome A) : outcome A :=
  snd r.

(** [for (i = start; i < start + n; i++) body(i)]: the two loops of
    [init.c] start at 0 and compare the index with a bound ([num_clients],
    [ports->num_ports]) that their body does not write, so they make as many
    turns as the bound says. *)
Fixpoint for_loop (n : nat) (i : Z) (body : Z -> M unit) : M unit :=
  match n with
  | O => ret tt
  | S n' => body i ;;; for_loop n' (i + 1) body
  end.

(** Memory updates. *)
Definition upd {A} (f : loc -> A) (p : loc) (v : A) : loc -> A :=
  fun q => if q =? p then v else f q.

Fixpoint set_nth {A} (l : list A) (i : nat) (v : A) : list A :=
  match l, i with
  | [], _ => []
  | _ :: t, O => v :: t
  | h :: t, S i' => h :: set_nth t i' v
  end.

Definition set_clients (p : option loc) : M unit :=
  s <- get ;;
  put (mkState p (pktmbuf_pool s) (ports s) (num_clients s) (shm s)
         (client_mem s)).

Definition set_pktmbuf_pool (mp : option rte_mempool) : M unit :=
  s <- get ;;
  put (mkState (clients s) mp (ports s) (num_clients s) (shm s)
         (client_mem s)).

Definition set_ports (p : option loc) : M unit :=
  s <- get ;;
  put (mkState (clients s) (pktmbuf_pool s) p (num_clients s) (shm s)
         (client_mem s)).

Definition set_num_clients (n : Z) : M unit :=
  s <- get ;;
  put (mkState (clients s) (pktmbuf_pool s) (ports s) n (shm s)
         (client_mem s)).

Definition set_shm (p : loc) (bytes : list Z) : M unit :=
  s <- get ;;
  put (mkState (clients s) (pktmbuf_pool s) (ports s) (num_clients s)
         (upd (shm s) p bytes) (client_mem s)).

Definition set_client_mem (p : loc) (arr : list client) : M unit :=
  s <- get ;;
  put (mkState (clients s) (pktmbuf_pool s) (ports s) (num_clients s)
         (shm s) (upd (client_mem s) p arr)).

(** [*ports]: the port table read through the global pointer. *)
Definition deref_ports (P : platform) : M port_info :=
  s <- get ;;
  match ports s with
  | Some p => ret (port_info_of_bytes P (shm s p))
  | None => fault
  end.

(** [clients[i].rx_q = r] *)
Definition write_rx_q (i : Z) (r : option rte_ring) : M unit :=
  s <- get ;;
  match clients s with
  | Some p =>
      set_client_mem p (set_nth (client_mem s p) (Z.to_nat i) {| rx_q := r |})
  | None => fault
  end.

(** [clients[i].rx_q] *)
Definition read_rx_q (i : Z) : M (option rte_ring) :=
  s <- get ;;
  match clients s with
  | Some p =>
      match nth_error (client_mem s p) (Z.to_nat i) with
      | Some c => ret (rx_q c)
      | None => fault
      end
  | None => fault
  end.

(** [memset(dst, c, n)] on a shared region. *)
Definition memset (dst : loc) (c : Z) (n : Z) : M unit :=
  emit (EvMemset dst c n) ;;;
  s <- get ;;
  set_shm dst (repeat c (Z.to_nat n) ++ skipn (Z.to_nat n) (shm s dst)).

(** ** The functions of [init.c] *)

Section Bringup.

Context (P : platform) (E : environment).

(** External calls: the oracle's answer, recorded in the trace. *)
Definition call_rte_eal_init (argc : Z) (argv : list string) : M Z :=
  let r := rte_eal_init E argc argv in
  emit (EvEalInit argc r) ;;; ret r.

Definition call_rte_memzone_lookup (name : string) : M (option rte_memzone) :=
  let mz := rte_memzone_lookup E name in
  emit (EvMemzoneLookup name mz) ;;; ret mz.

Definition call_rte_memzone_reserve (name : string) (len socket flags : Z)
  : M (option rte_memzone) :=
  let mz := rte_memzone_reserve E name len socket flags in
  emit (EvMemzoneReserve name len socket flags mz) ;;; ret mz.

(** [parse_app_args] reads and writes the table behind [ports] and sets
    [num_clients]. *)
Definition call_parse_app_args (total_ports argc : Z) (argv : list string)
  : M Z :=
  s <- get ;;
  match ports s with
  | Some p =>
      match parse_app_args E total_ports argc argv (shm s p) with
      | (r, bytes, n) =>
          emit (EvParseAppArgs total_ports argc (shm s p) r) ;;;
          set_shm p bytes ;;;
          set_num_clients n ;;;
          ret r
      end
  | None => fault
  end.

Definition call_rte_mempool_lookup (name : string) : M (option rte_mempool) :=
  let mp := rte_mempool_lookup E name in
  emit (EvMempoolLookup name mp) ;;; ret mp.

(** [rte_mempool_create]: the four arguments that are callbacks and their
    data, the same at every call, are left out. *)
Definition call_rte_mempool_create (name : string)
  (n elt_size cache_size priv_size socket flags : Z)
  : M (option rte_mempool) :=
  let mp :=
    rte_mempool_create E name n elt_size cache_size priv_size socket flags in
  emit (EvMempoolCreate name n elt_size cache_size priv_size socket flags mp)
  ;;; ret mp.

Definition call_init_port (port : Z) (mp : option rte_mempool) : M Z :=
  let r := init_port E port mp in
  emit (EvInitPort port mp r) ;;; ret r.

Definition check_all_ports_link_status (table : option loc)
  (port_num mask : Z) : M unit :=
  emit (EvCheckLinks table port_num mask).

(** [rte_malloc(type, size, align)] for an array of [n] client records: the
    block, when there is one, holds [n] records nobody has written. *)
Definition call_rte_malloc (type : string) (size align : Z) (n : Z)
  : M (option loc) :=
  let p := rte_malloc E type size align in
  emit (EvMalloc type size align p) ;;;
  match p with
  | Some a =>
      set_client_mem a
        (map (fun k => uninitialised E (Z.of_nat k)) (seq 0 (Z.to_nat n)))
  | None => ret tt
  end ;;;
  ret p.

Definition call_rte_ring_lookup (name : string) : M (option rte_ring) :=
  let r := rte_ring_lookup E name in
  emit (EvRingLookup name r) ;;; ret r.

Definition call_rte_ring_create (name : string) (count socket flags : Z)
  : M (option rte_ring) :=
  let r := rte_ring_create E name count socket flags in
  emit (EvRingCreate name count socket flags r) ;;; ret r.

(** [static int init_mbuf_pools(void)] *)
Definition init_mbuf_pools : M Z :=
  s <- get ;;
  pt <- deref_ports P ;;
  let num_mbufs :=
    ((num_clients s * MBUFS_PER_CLIENT P)
     + (num_ports pt * MBUFS_PER_PORT P)) mod UINT_MODULUS in
  emit (EvLog "Creating mbuf pool '%s' [%u mbufs] ...\n"
          (PKTMBUF_POOL_NAME P) num_mbufs) ;;;
  (if proc_type_eqb (rte_eal_process_type E) RTE_PROC_SECONDARY then
     mp <- call_rte_mempool_lookup (PKTMBUF_POOL_NAME P) ;;
     set_pktmbuf_pool mp ;;;
     s1 <- get ;;
     match pktmbuf_pool s1 with
     | None => rte_exit EXIT_FAILURE "Cannot get mempool for mbufs\n" []
     | Some _ => ret tt
     end
   else
     mp <- call_rte_mempool_create (PKTMBUF_POOL_NAME P) num_mbufs
             (MBUF_SIZE P) (MBUF_CACHE_SIZE P)
             (sizeof_pktmbuf_pool_private P) (rte_socket_id E) (NO_FLAGS P) ;;
     set_pktmbuf_pool mp) ;;;
  s2 <- get ;;
  ret (match pktmbuf_pool s2 with None => 1 | Some _ => 0 end).

(** The body of the loop of [init_shm_rings]. *)
Definition ring_body (ringsize : Z) (i : Z) : M unit :=
  let socket_id := rte_socket_id E in
  let q_name := get_rx_queue_name P i in
  (if proc_type_eqb (rte_eal_process_type E) RTE_PROC_SECONDARY then
     r <- call_rte_ring_lookup q_name ;;
     write_rx_q i r
   else
     r <- call_rte_ring_create q_name ringsize socket_id
            (Z.lor (RING_F_SP_ENQ P) (RING_F_SC_DEQ P)) ;;
     write_rx_q i r) ;;;
  q <- read_rx_q i ;;
  match q with
  | None =>
      rte_exit EXIT_FAILURE "Cannot create rx ring queue for client %u\n" [i]
  | Some _ => ret tt
  end.

(** [static int init_shm_rings(void)] *)
Definition init_shm_rings : M Z :=
  let ringsize := CLIENT_QUEUE_RINGSIZE in
  s <- get ;;
  p <- call_rte_malloc "client details"
         ((sizeof_client P * num_clients s) mod SIZE_MODULUS) 0
         (num_clients s) ;;
  set_clients p ;;;
  s1 <- get ;;
  match clients s1 with
  | None =>
      rte_exit EXIT_FAILURE
        "Cannot allocate memory for client program details\n" []
  | Some _ => ret tt
  end ;;;
  for_loop (Z.to_nat (num_clients s)) 0 (ring_body ringsize) ;;;
  ret 0.

(** The body of the port loop of [init]. *)
Definition port_body (count : Z) : M unit :=
  pt <- deref_ports P ;;
  s <- get ;;
  retval <- call_init_port (nth (Z.to_nat count) (id pt) 0)
              (pktmbuf_pool s) ;;
  if negb (retval =? 0)
  then rte_exit EXIT_FAILURE "Cannot initialise port %d\n" [count]
  else ret tt.

(** The port-data set-up of [init], lines 150 to 165. *)
Definition bind_port_info : M unit :=
  if proc_type_eqb (rte_eal_process_type E) RTE_PROC_SECONDARY then
    mz <- call_rte_memzone_lookup (MZ_PORT_INFO P) ;;
    match mz with
    | None => rte_exit EXIT_FAILURE "Cannot get port info structure\n" []
    | Some z => set_ports (Some (addr z))
    end
  else
    mz <- call_rte_memzone_reserve (MZ_PORT_INFO P) (sizeof_port_info P)
            (rte_socket_id E) (NO_FLAGS P) ;;
    match mz with
    | None =>
        rte_exit EXIT_FAILURE
          "Cannot reserve memory zone for port information\n" []
    | Some z =>
        memset (addr z) 0 (sizeof_port_info P) ;;;
        set_ports (Some (addr z))
    end.

(** [int init(int argc, char *argv[])] *)
Definition init (argc : Z) (argv : list string) : M Z :=
  retval <- call_rte_eal_init argc argv ;;
  if retval <? 0 then ret (-1) else
  let argc := argc - retval in
  let argv := skipn (Z.to_nat retval) argv in
  let total_ports := rte_eth_dev_count E in
  bind_port_info ;;;
  retval <- call_parse_app_args total_ports argc argv ;;
  if negb (retval =? 0) then ret (-1) else
  retval <- init_mbuf_pools ;;
  (if negb (retval =? 0)
   then rte_exit EXIT_FAILURE "Cannot create needed mbuf pools\n" []
   else ret tt) ;;;
  (if proc_type_eqb (rte_eal_process_type E) RTE_PROC_PRIMARY then
     pt <- deref_ports P ;;
     for_loop (Z.to_nat (num_ports pt)) 0 port_body
   else ret tt) ;;;
  s <- get ;;
  pt <- deref_ports P ;;
  check_all_ports_link_status (ports s) (num_ports pt) (Z.lnot 0) ;;;
  init_shm_rings ;;;
  ret 0.

End Bringup.

(** ** What an execution is observed to do

    The loops go through indices in order; the calls they make, and the
    calls of [init] around them, are named here so that the statements
    below can speak of them. *)

(** The indices [i, i+1, ..., i+n-1] a loop goes through. *)
Fixpoint zseq (n : nat) (i : Z) : list Z :=
  match n with
  | O => []
  | S n' => i :: zseq n' (i + 1)
  end.

(** Two states with the same globals and the same shared memory: they may
    differ in the client records only. *)
Definition same_globals (s s' : state) : Prop :=
  clients s' = clients s /\ pktmbuf_pool s' = pktmbuf_pool s /\
  ports s' = ports s /\ num_clients s' = num_clients s /\ shm s' = shm s.

Section Observations.

Context (P : platform) (E : environment).

(** What the facility answers for the queue of client [i], by role. *)
Definition ring_result (i : Z) : option rte_ring :=
  if proc_type_eqb (rte_eal_process_type E) RTE_PROC_SECONDARY
  then rte_ring_lookup E (get_rx_queue_name P i)
  else rte_ring_create E (get_rx_queue_name P i) CLIENT_QUEUE_RINGSIZE
         (rte_socket_id E) (Z.lor (RING_F_SP_ENQ P) (RING_F_SC_DEQ P)).

(** The call made for the queue of client [i], by role. *)
Definition ring_event (i : Z) : event :=
  if proc_type_eqb (rte_eal_process_type E) RTE_PROC_SECONDARY
  then EvRingLookup (get_rx_queue_name P i)
         (rte_ring_lookup E (get_rx_queue_name P i))
  else EvRingCreate (get_rx_queue_name P i) CLIENT_QUEUE_RINGSIZE
         (rte_socket_id E) (Z.lor (RING_F_SP_ENQ P) (RING_F_SC_DEQ P))
         (rte_ring_create E (get_rx_queue_name P i) CLIENT_QUEUE_RINGSIZE
            (rte_socket_id E) (Z.lor (RING_F_SP_ENQ P) (RING_F_SC_DEQ P))).

Definition ring_exit (i : Z) : event :=
  EvExit EXIT_FAILURE "Cannot create rx ring queue for client %u\n" [i].

(** The allocation [init_shm_rings] starts with. *)
Definition malloc_size (s : state) : Z :=
  (sizeof_client P * num_clients s) mod SIZE_MODULUS.

Definition malloc_result (s : state) : option loc :=
  rte_malloc E "client details" (malloc_size s) 0.

Definition malloc_event (s : state) : event :=
  EvMalloc "client details" (malloc_size s) 0 (malloc_result s).

Definition malloc_exit : event :=
  EvExit EXIT_FAILURE
    "Cannot allocate memory for client program details\n" [].

(** The call made for port number [count] of the table, from state [s]. *)
Definition port_ret (s : state) (count : Z) : Z :=
  match ports s with
  | Some p =>
      init_port E (nth (Z.to_nat count) (id (port_info_of_bytes P (shm s p))) 0)
        (pktmbuf_pool s)
  | None => 0
  end.

Definition port_event (s : state) (count : Z) : event :=
  match ports s with
  | Some p =>
      EvInitPort (nth (Z.to_nat count) (id (port_info_of_bytes P (shm s p))) 0)
        (pktmbuf_pool s) (port_ret s count)
  | None => EvInitPort 0 None 0
  end.

Definition port_exit (count : Z) : event :=
  EvExit EXIT_FAILURE "Cannot initialise port %d\n" [count].

(** The binding of the port-info region, by role: the answer of the
    facility and the call recorded. *)
Definition port_info_zone : option rte_memzone :=
  if proc_type_eqb (rte_eal_process_type E) RTE_PROC_SECONDARY
  then rte_memzone_lookup E (MZ_PORT_INFO P)
  else rte_memzone_reserve E (MZ_PORT_INFO P) (sizeof_port_info P)
         (rte_socket_id E) (NO_FLAGS P).

Definition port_info_event : event :=
  if proc_type_eqb (rte_eal_process_type E) RTE_PROC_SECONDARY
  then EvMemzoneLookup (MZ_PORT_INFO P) (rte_memzone_lookup E (MZ_PORT_INFO P))
  else EvMemzoneReserve (MZ_PORT_INFO P) (sizeof_port_info P)
         (rte_socket_id E) (NO_FLAGS P)
         (rte_memzone_reserve E (MZ_PORT_INFO P) (sizeof_port_info P)
            (rte_socket_id E) (NO_FLAGS P)).

(** The bytes of the region [z] when [parse_app_args] is called. *)
Definition region_at_parse (s : state) (z : rte_memzone) : list Z :=
  if proc_type_eqb (rte_eal_process_type E) RTE_PROC_SECONDARY
  then shm s (addr z)
  else repeat 0 (Z.to_nat (sizeof_port_info P))
       ++ skipn (Z.to_nat (sizeof_port_info P)) (shm s (addr z)).

(** What [parse_app_args] returns in the execution of [init] from [s]. *)
Definition parse_status (argc : Z) (argv : list string) (s : state)
  (z : rte_memzone) : Z :=
  fst (fst (parse_app_args E (rte_eth_dev_count E)
              (argc - rte_eal_init E argc argv)
              (skipn (Z.to_nat (rte_eal_init E argc argv)) argv)
              (region_at_parse s z))).

(** The buffers the configuration asks for, as a number. *)
Definition pool_demand (nclients nports : Z) : Z :=
  nclients * MBUFS_PER_CLIENT P + nports * MBUFS_PER_PORT P.

End Observations.

(** A lookup of a named shared resource that came back [NULL]. *)
Definition null_lookup (e : event) : bool :=
  match e with
  | EvMemzoneLookup _ None => true
  | EvMempoolLookup _ None => true
  | EvRingLookup _ None => true
  | _ => false
  end.

(** A trace without a failed lookup. *)
Definition quiet (tr : list event) : Prop :=
  Forall (fun e => null_lookup e = false) tr.

(** Which call an event is. *)
Definition is_check_links (e : event) : bool :=
  match e with EvCheckLinks _ _ _ => true | _ => false end.

Definition is_init_port (e : event) : bool :=
  match e with EvInitPort _ _ _ => true | _ => false end.

Definition is_malloc (e : event) : bool :=
  match e with EvMalloc _ _ _ _ => true | _ => false end.

(** The creations and attachments of the named shared resources and of the
    client block. *)
Definition touches_shared (e : event) : bool :=
  match e with
  | EvMemzoneLookup _ _ | EvMemzoneReserve _ _ _ _ _
  | EvMempoolLookup _ _ | EvMempoolCreate _ _ _ _ _ _ _ _
  | EvMalloc _ _ _ _ | EvRingLookup _ _ | EvRingCreate _ _ _ _ _ => true
  | _ => false
  end.

(** The names of the queues looked up, in order. *)
Definition ring_lookups (tr : list event) : list string :=
  flat_map (fun e => match e with EvRingLookup n _ => [n] | _ => [] end) tr.

(** The queues created, in order: name, capacity, socket and flags. *)
Definition ring_creates (tr : list event) : list (string * Z * Z * Z) :=
  flat_map (fun e => match e with
                     | EvRingCreate n c k f _ => [(n, c, k, f)]
                     | _ => []
                     end) tr.

(** The capacities of the pools created. *)
Definition mempool_capacities (tr : list event) : list Z :=
  flat_map (fun e => match e with
                     | EvMempoolCreate _ n _ _ _ _ _ _ => [n]
                     | _ => []
                     end) tr.

(** Further observations: the exit, the calls by which a process creates
    or configures rather than attaches, the lookups, the call of the
    argument parser, and the calls that failed other than a lookup. *)
Definition is_exit (e : event) : bool :=
  match e with EvExit _ _ _ => true | _ => false end.

Definition creates_or_configures (e : event) : bool :=
  match e with
  | EvMemzoneReserve _ _ _ _ _ | EvMemset _ _ _
  | EvMempoolCreate _ _ _ _ _ _ _ _ | EvInitPort _ _ _
  | EvRingCreate _ _ _ _ _ => true
  | _ => false
  end.

Definition is_lookup (e : event) : bool :=
  match e with
  | EvMemzoneLookup _ _ | EvMempoolLookup _ _ | EvRingLookup _ _ => true
  | _ => false
  end.

Definition is_parse (e : event) : bool :=
  match e with EvParseAppArgs _ _ _ _ => true | _ => false end.

Definition failed_call (e : event) : bool :=
  match e with
  | EvMemzoneReserve _ _ _ _ None => true
  | EvMempoolCreate _ _ _ _ _ _ _ None => true
  | EvMalloc _ _ _ None => true
  | EvRingCreate _ _ _ _ None => true
  | EvInitPort _ _ r => negb (r =? 0)
  | _ => false
  end.

(** A trace in which no event satisfies [f]. *)
Definition silent (f : event -> bool) (tr : list event) : Prop :=
  Forall (fun e => f e = false) tr.

(** What the pool calls and the allocations returned, in order. *)
Definition pool_results (tr : list event) : list (option rte_mempool) :=
  flat_map (fun e => match e with
                     | EvMempoolLookup _ mp => [mp]
                     | EvMempoolCreate _ _ _ _ _ _ _ mp => [mp]
                     | _ => []
                     end) tr.

Definition malloc_results (tr : list event) : list (option loc) :=
  flat_map (fun e => match e with EvMalloc _ _ _ p => [p] | _ => [] end) tr.

(** The stage of the bring-up a call belongs to: the set-up of the
    execution environment (1), the binding of the port table (3), the
    parsing of the application arguments (4), the binding of the pool (5),
    the configuration of the ports (6), the polling of the links (7), the
    binding of the queues (8), and the exit (9). *)
Definition stage (e : event) : nat :=
  match e with
  | EvEalInit _ _ => 1
  | EvMemzoneLookup _ _ | EvMemzoneReserve _ _ _ _ _ | EvMemset _ _ _ => 3
  | EvParseAppArgs _ _ _ _ => 4
  | EvLog _ _ _ | EvMempoolLookup _ _ | EvMempoolCreate _ _ _ _ _ _ _ _ => 5
  | EvInitPort _ _ _ => 6
  | EvCheckLinks _ _ _ => 7
  | EvMalloc _ _ _ _ | EvRingLookup _ _ | EvRingCreate _ _ _ _ _ => 8
  | EvExit _ _ _ => 9
  end%nat.

(** The stages of a trace never go back, starting from [lo]. *)
Fixpoint staged (lo : nat) (tr : list event) : Prop :=
  match tr with
  | [] => True
  | e :: rest => (lo <= stage e)%nat /\ staged (stage e) rest
  end.

(** A trace that ends with the event [x]. *)
Definition ends_with (x : event) (tr : list event) : Prop :=
  exists pre, tr = pre ++ [x].

(** The calls of the binding of the pool, and those of the binding of the
    queues. *)
Definition is_pool_call (e : event) : bool :=
  match e with
  | EvLog _ _ _ | EvMempoolLookup _ _ | EvMempoolCreate _ _ _ _ _ _ _ _ => true
  | _ => false
  end.

Definition is_queue_call (e : event) : bool :=
  match e with
  | EvMalloc _ _ _ _ | EvRingLookup _ _ | EvRingCreate _ _ _ _ _ => true
  | _ => false
  end.

(** How an execution of [init] may end: it returns 0 or -1 with no exit in
    the trace, or the process ends with [EXIT_FAILURE] and the exit is in
    the trace once, as its last event. *)
Definition well_ended (tr : list event) (o : outcome Z) : Prop :=
  match o with
  | Returned v => (v = 0 \/ v = -1) /\ filter is_exit tr = []
  | Exited code =>
      code = EXIT_FAILURE /\
      exists fmt args,
        filter is_exit tr = [EvExit EXIT_FAILURE fmt args] /\
        ends_with (EvExit EXIT_FAILURE fmt args) tr
  | Fault => False
  end.

(** ** A concrete platform and concrete environments

    The values of the DPDK multi-process example, to run the functions on. *)

Definition string_of_Z (z : Z) : string :=
  NilZero.string_of_uint (N.to_uint (Z.to_N z)).

Definition sample_platform : platform := {|
  MBUFS_PER_CLIENT := 1536;
  MBUFS_PER_PORT := 1536;
  MBUF_SIZE := 2304;
  MBUF_CACHE_SIZE := 512;
  NO_FLAGS := 0;
  PKTMBUF_POOL_NAME := "MProc_pktmbuf_pool";
  MZ_PORT_INFO := "MProc_port_info";
  RING_F_SP_ENQ := 1;
  RING_F_SC_DEQ := 2;
  sizeof_client := 32;
  sizeof_port_info := 8;
  sizeof_pktmbuf_pool_private := 4;
  get_rx_queue_name := fun i =>
    String.append "MProc_Client_" (String.append (string_of_Z i) "_RX");
  port_info_of_bytes := fun bytes =>
    {| num_ports := nth 0 bytes 0 + 256 * nth 1 bytes 0;
       id := skipn 2 bytes |}
|}.

(** An environment in which every call succeeds, but for the switches:
    the role, what [rte_eal_init] and [parse_app_args] return, whether the
    pool is there, which allocation sizes and which ring names fail.  The
    parser publishes two ports, 0 and 1, and [nclients] clients. *)
Definition sample_env (role : rte_proc_type_t) (eal_ret parse_ret : Z)
  (pool_ok : bool) (malloc_ok : Z -> bool) (ring_ok : string -> bool)
  (nclients : Z) : environment := {|
  rte_eal_init := fun _ _ => eal_ret;
  rte_eal_process_type := role;
  rte_eth_dev_count := 2;
  rte_socket_id := 0;
  rte_memzone_lookup := fun _ => Some {| addr := 4096 |};
  rte_memzone_reserve := fun _ _ _ _ => Some {| addr := 4096 |};
  parse_app_args := fun _ _ _ _ => (parse_ret, [2; 0; 0; 1], nclients);
  rte_mempool_lookup := fun _ => if pool_ok then Some (Mempool 1) else None;
  rte_mempool_create :=
    fun _ _ _ _ _ _ _ => if pool_ok then Some (Mempool 1) else None;
  init_port := fun _ _ => 0;
  rte_malloc := fun _ size _ => if malloc_ok size then Some 8192 else None;
  uninitialised := fun _ => {| rx_q := None |};
  rte_ring_lookup :=
    fun name =>
      if ring_ok name then Some (Ring (Z.of_nat (String.length name)))
      else None;
  rte_ring_create :=
    fun name _ _ _ =>
      if ring_ok name then Some (Ring (Z.of_nat (String.length name)))
      else None
|}.

Definition all_ok {A} (_ : A) : bool := true.

(** The process at start-up: the globals are zero, the memory holds
    whatever it holds. *)
Definition start : state := {|
  clients := None;
  pktmbuf_pool := None;
  ports := None;
  num_clients := 0;
  shm := fun _ => [7; 7; 7; 7; 7; 7; 7; 7; 7; 7];
  client_mem := fun _ => []
|}.

(** A state in which the port table is bound and read as [np] ports, with
    [nc] clients configured. *)
Definition bound (nc np : Z) : state := {|
  clients := None;
  pktmbuf_pool := None;
  ports := Some 4096;
  num_clients := nc;
  shm := fun _ => [np mod 256; np / 256];
  client_mem := fun _ => []
|}.

(** The command line, and a primary and a secondary for which every call
    succeeds, with two clients. *)
Definition sample_args : list string := ["server"; "-n"; "2"].

Definition env_primary : environment :=
  sample_env RTE_PROC_PRIMARY 1 0 true all_ok all_ok 2.

Definition env_secondary : environment :=
  sample_env RTE_PROC_SECONDARY 1 0 true all_ok all_ok 2.

(** A primary whose application arguments do not parse. *)
Definition env_bad_args : environment :=
  sample_env RTE_PROC_PRIMARY 1 1 true all_ok all_ok 2.

(** A primary with no client configured, and an allocator that answers
    [NULL] to a request of zero bytes. *)
Definition env_no_clients : environment :=
  sample_env RTE_PROC_PRIMARY 1 0 true (fun size => negb (size =? 0)) all_ok 0.

(** A secondary that finds the port-info region but not the pool. *)
Definition env_no_pool : environment :=
  sample_env RTE_PROC_SECONDARY 1 0 false all_ok all_ok 2.

(** A secondary for which the queue of client 1 is missing. *)
Definition env_missing_ring : environment :=
  sample_env RTE_PROC_SECONDARY 1 0 true all_ok
    (fun name => negb (String.eqb name "MProc_Client_1_RX")) 2.

(** A primary whose allocator refuses a request of zero bytes only, with
    two clients configured. *)
Definition env_strict_malloc : environment :=
  sample_env RTE_PROC_PRIMARY 1 0 true (fun size => negb (size =? 0)) all_ok 2.

(** A primary for which the pool cannot be created. *)
Definition env_pool_refused : environment :=
  sample_env RTE_PROC_PRIMARY 1 0 false all_ok all_ok 2.

(** ** Lists, memory and the monad *)

Lemma zseq_length n : forall i, List.length (zseq n i) = n.
Proof. induction n; simpl; intros; [reflexivity | now rewrite IHn]. Qed.

Lemma zseq_In n : forall i j, In j (zseq n i) <-> i <= j < i + Z.of_nat n.
Proof.
  induction n; intros i j; simpl zseq.
  - simpl. lia.
  - simpl In. rewrite IHn. lia.
Qed.

Lemma zseq_snoc n : forall i,
  zseq (S n) i = zseq n i ++ [i + Z.of_nat n].
Proof.
  induction n; intros i.
  - simpl. now rewrite Z.add_0_r.
  - change (zseq (S (S n)) i) with (i :: zseq (S n) (i + 1)).
    rewrite IHn. simpl. do 3 f_equal. lia.
Qed.

Lemma set_nth_length {A} (l : list A) : forall i v,
  List.length (set_nth l i v) = List.length l.
Proof.
  induction l; intros [|i] v; simpl; auto.
Qed.

Lemma set_nth_same {A} (l : list A) : forall i v,
  (i < List.length l)%nat -> nth_error (set_nth l i v) i = Some v.
Proof.
  induction l; intros [|i] v H; simpl in *; try lia; auto.
  apply IHl. lia.
Qed.

Lemma set_nth_other {A} (l : list A) : forall i j v,
  i <> j -> nth_error (set_nth l i v) j = nth_error l j.
Proof.
  induction l; intros [|i] [|j] v H; simpl; auto; try congruence.
Qed.

Lemma upd_same {A} (f : loc -> A) p v : upd f p v p = v.
Proof. unfold upd. now rewrite Z.eqb_refl. Qed.

Lemma same_globals_refl s : same_globals s s.
Proof. repeat split. Qed.

Lemma same_globals_trans s1 s2 s3 :
  same_globals s1 s2 -> same_globals s2 s3 -> same_globals s1 s3.
Proof.
  unfold same_globals. intros (a & b & c & d & e) (a' & b' & c' & d' & e').
  repeat split; congruence.
Qed.

Lemma filter_map_none {A B} (f : B -> bool) (g : A -> B) (l : list A) :
  (forall x, f (g x) = false) -> filter f (map g l) = [].
Proof.
  intros H. induction l as [|a l IH]; simpl; [reflexivity|].
  now rewrite H.
Qed.

Lemma flat_map_map {A B C} (f : B -> list C) (g : A -> B) (l : list A) :
  flat_map f (map g l) = flat_map (fun x => f (g x)) l.
Proof.
  induction l as [|a l IH]; simpl; [reflexivity | now rewrite IH].
Qed.

Lemma flat_map_nil {A B} (f : A -> list B) (l : list A) :
  (forall x, f x = []) -> flat_map f l = [].
Proof.
  intros H. induction l as [|a l IH]; simpl; [reflexivity|].
  now rewrite H, IH.
Qed.

Lemma flat_map_single {A B} (f : A -> B) (l : list A) :
  flat_map (fun x => [f x]) l = map f l.
Proof.
  induction l as [|a l IH]; simpl; [reflexivity | now rewrite IH].
Qed.

Lemma firstn_repeat_app {A} (x : A) (n : nat) (l : list A) :
  firstn n (repeat x n ++ l) = repeat x n.
Proof.
  rewrite firstn_app, repeat_length, Nat.sub_diag, firstn_O, app_nil_r.
  apply firstn_all2. rewrite repeat_length. lia.
Qed.

(** Runs the monad's plumbing and the wrappers of the external calls. *)
Ltac run_monad :=
  cbv beta iota zeta delta
    [bind ret emit get put fault rte_exit
     set_clients set_pktmbuf_pool set_ports set_num_clients set_shm
     set_client_mem deref_ports write_rx_q read_rx_q memset
     call_rte_eal_init call_rte_memzone_lookup call_rte_memzone_reserve
     call_parse_app_args call_rte_mempool_lookup call_rte_mempool_create
     call_init_port check_all_ports_link_status call_rte_malloc
     call_rte_ring_lookup call_rte_ring_create];
  cbn [clients pktmbuf_pool ports num_clients shm client_mem app].

Lemma for_loop_S n i (body : Z -> M unit) s :
  for_loop (S n) i body s
  = match body i s with
    | (t1, s1, Returned _) =>
        match for_loop n (i + 1) body s1 with
        | (t2, s2, o) => (t1 ++ t2, s2, o)
        end
    | (t1, s1, Exited c) => (t1, s1, Exited c)
    | (t1, s1, Fault) => (t1, s1, Fault)
    end.
Proof. reflexivity. Qed.

(** ** The loops and [init_shm_rings] *)

Section Loops.

Context (P : platform) (E : environment).

(** One turn of the loop of [init_shm_rings]. *)
Lemma ring_body_run (i : Z) (s : state) (p : loc) :
  clients s = Some p ->
  (Z.to_nat i < List.length (client_mem s p))%nat ->
  exists s',
    same_globals s s' /\
    client_mem s' p
      = set_nth (client_mem s p) (Z.to_nat i) {| rx_q := ring_result P E i |} /\
    ring_body P E CLIENT_QUEUE_RINGSIZE i s
      = match ring_result P E i with
        | Some _ => ([ring_event P E i], s', Returned tt)
        | None => ([ring_event P E i; ring_exit i], s', Exited EXIT_FAILURE)
        end.
Proof.
  intros Hc Hlen.
  exists (mkState (clients s) (pktmbuf_pool s) (ports s) (num_clients s)
            (shm s)
            (upd (client_mem s) p
               (set_nth (client_mem s p) (Z.to_nat i)
                  {| rx_q := ring_result P E i |}))).
  split; [repeat split|]. split; [apply upd_same|].
  unfold ring_body, ring_result, ring_event, ring_exit.
  destruct (proc_type_eqb (rte_eal_process_type E) RTE_PROC_SECONDARY);
    repeat (run_monad;
            first [rewrite Hc | rewrite upd_same
                  | rewrite set_nth_same by assumption]).
  - destruct (rte_ring_lookup E (get_rx_queue_name P i)); reflexivity.
  - destruct (rte_ring_create E (get_rx_queue_name P i) CLIENT_QUEUE_RINGSIZE
                (rte_socket_id E) (Z.lor (RING_F_SP_ENQ P) (RING_F_SC_DEQ P)));
      reflexivity.
Qed.

(** The whole loop of [init_shm_rings]: either every queue is obtained, in
    index order, and the loop ends; or the first queue the facility refuses
    ends the process. *)
Lemma ring_loop_run n : forall i s p,
  clients s = Some p -> 0 <= i ->
  (Z.to_nat i + n <= List.length (client_mem s p))%nat ->
  exists s',
    same_globals s s' /\
    List.length (client_mem s' p) = List.length (client_mem s p) /\
    ((Forall (fun j => ring_result P E j <> None) (zseq n i) /\
      for_loop n i (ring_body P E CLIENT_QUEUE_RINGSIZE) s
        = (map (ring_event P E) (zseq n i), s', Returned tt) /\
      (forall j, i <= j < i + Z.of_nat n ->
         nth_error (client_mem s' p) (Z.to_nat j)
           = Some {| rx_q := ring_result P E j |}) /\
      (forall k, (k < Z.to_nat i)%nat ->
         nth_error (client_mem s' p) k = nth_error (client_mem s p) k))
     \/
     (exists k, (k < n)%nat /\
        Forall (fun j => ring_result P E j <> None) (zseq k i) /\
        ring_result P E (i + Z.of_nat k) = None /\
        for_loop n i (ring_body P E CLIENT_QUEUE_RINGSIZE) s
          = (map (ring_event P E) (zseq (S k) i)
               ++ [ring_exit (i + Z.of_nat k)],
             s', Exited EXIT_FAILURE))).
Proof.
  induction n as [|n IH]; intros i s p Hc Hi Hlen.
  - exists s. split; [apply same_globals_refl|]. split; [reflexivity|].
    left. repeat split; auto. intros j Hj. lia.
  - destruct (ring_body_run i s p Hc) as (s1 & Hg1 & Hm1 & Hrun); [lia|].
    assert (Hc1 : clients s1 = Some p) by (destruct Hg1 as (-> & _); exact Hc).
    assert (Hl1 : List.length (client_mem s1 p) = List.length (client_mem s p))
      by (rewrite Hm1; apply set_nth_length).
    rewrite for_loop_S, Hrun.
    destruct (ring_result P E i) as [r|] eqn:Hr.
    + destruct (IH (i + 1) s1 p Hc1) as (s2 & Hg2 & Hl2 & Hcase);
        [lia | rewrite Hl1; lia |].
      exists s2. split; [eapply same_globals_trans; eassumption|].
      split; [congruence|].
      destruct Hcase as [(Hall & Hloop & Hnew & Hold)
                        | (k & Hk & Hall & Hnone & Hloop)].
      * left. rewrite Hloop. repeat split.
        -- simpl zseq. constructor; [congruence | exact Hall].
        -- intros j Hj. destruct (Z.eq_dec j i) as [->|Hne].
           ++ rewrite Hold by lia. rewrite Hm1. rewrite set_nth_same by lia.
              now rewrite Hr.
           ++ apply Hnew. lia.
        -- intros k Hk. rewrite Hold by lia. rewrite Hm1.
           apply set_nth_other. lia.
      * right. exists (S k). rewrite Hloop. repeat split.
        -- lia.
        -- simpl zseq. constructor; [congruence | exact Hall].
        -- rewrite <- Hnone. f_equal. lia.
        -- change (zseq (S (S k)) i) with (i :: zseq (S k) (i + 1)).
           rewrite map_cons, <- app_comm_cons.
           replace (i + Z.of_nat (S k)) with (i + 1 + Z.of_nat k) by lia.
           reflexivity.
    + exists s1. split; [exact Hg1|]. split; [exact Hl1|].
      right. exists O. repeat split.
      * lia.
      * constructor.
      * now rewrite Z.add_0_r.
      * simpl. now rewrite Z.add_0_r.
Qed.

(** Every execution of [init_shm_rings]. *)
Lemma init_shm_rings_run (s : state) :
  exists s',
    pktmbuf_pool s' = pktmbuf_pool s /\ ports s' = ports s /\
    num_clients s' = num_clients s /\ shm s' = shm s /\
    clients s' = malloc_result P E s /\
    match malloc_result P E s with
    | None =>
        init_shm_rings P E s
          = ([malloc_event P E s; malloc_exit], s', Exited EXIT_FAILURE)
    | Some a =>
        (Forall (fun j => ring_result P E j <> None)
           (zseq (Z.to_nat (num_clients s)) 0) /\
         init_shm_rings P E s
           = (malloc_event P E s
                :: map (ring_event P E) (zseq (Z.to_nat (num_clients s)) 0),
              s', Returned 0) /\
         (forall j, 0 <= j < num_clients s ->
            nth_error (client_mem s' a) (Z.to_nat j)
              = Some {| rx_q := ring_result P E j |}))
        \/
        (exists k, (k < Z.to_nat (num_clients s))%nat /\
           Forall (fun j => ring_result P E j <> None) (zseq k 0) /\
           ring_result P E (Z.of_nat k) = None /\
           init_shm_rings P E s
             = (malloc_event P E s
                  :: map (ring_event P E) (zseq (S k) 0)
                  ++ [ring_exit (Z.of_nat k)],
                s', Exited EXIT_FAILURE))
    end.
Proof.
  unfold malloc_event, malloc_exit, malloc_result, init_shm_rings.
  run_monad.
  destruct (rte_malloc E "client details" (malloc_size P s) 0) as [a|] eqn:Hm;
    unfold malloc_size in Hm; rewrite Hm.
  - run_monad.
    match goal with
    | |- context [for_loop ?n ?i ?b ?st] =>
        destruct (ring_loop_run n i st a) as (s' & Hg & Hl & Hcase)
    end.
    + reflexivity.
    + lia.
    + cbn [client_mem]. rewrite upd_same, length_map, length_seq. simpl. lia.
    + destruct Hg as (Hg1 & Hg2 & Hg3 & Hg4 & Hg5).
      cbn in Hg1, Hg2, Hg3, Hg4, Hg5.
      exists s'. repeat (split; [assumption|]).
      destruct Hcase as [(Hall & Hloop & Hnew & _)
                        | (k & Hk & Hall & Hnone & Hloop)];
        rewrite Hloop.
      * left. repeat split; auto.
        -- run_monad. now rewrite app_nil_r.
        -- intros j Hj. apply Hnew. lia.
      * right. exists k. repeat split; auto.
  - run_monad.
    exists (mkState None (pktmbuf_pool s) (ports s) (num_clients s) (shm s)
              (client_mem s)).
    repeat (split; [reflexivity|]). reflexivity.
Qed.

Lemma port_body_run (count : Z) (s : state) (p : loc) :
  ports s = Some p ->
  port_body P E count s
  = if port_ret P E s count =? 0
    then ([port_event P E s count], s, Returned tt)
    else ([port_event P E s count; port_exit count], s, Exited EXIT_FAILURE).
Proof.
  intros Hp. unfold port_body, port_event, port_ret, port_exit.
  run_monad. rewrite Hp. run_monad.
  destruct (init_port E _ _ =? 0); reflexivity.
Qed.

(** The port loop of [init]: it leaves the state as it is, and either
    configures every port or ends the process at the first refusal. *)
Lemma port_loop_run n : forall i s p,
  ports s = Some p ->
  (Forall (fun j => port_ret P E s j = 0) (zseq n i) /\
   for_loop n i (port_body P E) s
     = (map (port_event P E s) (zseq n i), s, Returned tt))
  \/
  (exists k, (k < n)%nat /\
     for_loop n i (port_body P E) s
       = (map (port_event P E s) (zseq (S k) i) ++ [port_exit (i + Z.of_nat k)],
          s, Exited EXIT_FAILURE)).
Proof.
  induction n as [|n IH]; intros i s p Hp.
  - left. split; [constructor | reflexivity].
  - rewrite for_loop_S, (port_body_run i s p Hp).
    destruct (port_ret P E s i =? 0) eqn:Hr.
    + apply Z.eqb_eq in Hr.
      destruct (IH (i + 1) s p Hp) as [(Hall & Hloop) | (k & Hk & Hloop)];
        rewrite Hloop.
      * left. split; [constructor; assumption | reflexivity].
      * right. exists (S k). split; [lia|].
        change (zseq (S (S k)) i) with (i :: zseq (S k) (i + 1)).
        rewrite map_cons, <- app_comm_cons.
        replace (i + Z.of_nat (S k)) with (i + 1 + Z.of_nat k) by lia.
        reflexivity.
    + right. exists O. split; [lia|]. simpl. now rewrite Z.add_0_r.
Qed.

End Loops.

(** ** Facts about traces *)

Lemma quiet_no_null tr ev :
  quiet tr -> In ev tr -> null_lookup ev = true -> False.
Proof.
  unfold quiet. rewrite Forall_forall. intros H Hin Hn.
  rewrite (H ev Hin) in Hn. discriminate.
Qed.

Lemma fatal_tail pre e x ev :
  quiet pre -> null_lookup x = false ->
  In ev (pre ++ [e; x]) -> null_lookup ev = true -> ev = e.
Proof.
  intros Hq Hx Hin Hn. apply in_app_or in Hin. destruct Hin as [Hin | Hin].
  - exfalso. eapply quiet_no_null; eassumption.
  - destruct Hin as [<- | [<- | []]]; [reflexivity | congruence].
Qed.

Lemma quiet_port_events P E st l : quiet (map (port_event P E st) l).
Proof.
  unfold quiet. apply Forall_map, Forall_forall. intros j _.
  unfold port_event. destruct (ports st); reflexivity.
Qed.

Lemma quiet_ring_events P E l :
  Forall (fun j => ring_result P E j <> None) l ->
  quiet (map (ring_event P E) l).
Proof.
  unfold quiet. intros H. apply Forall_map. revert H. apply Forall_impl.
  intros j. unfold ring_result, ring_event.
  destruct (proc_type_eqb (rte_eal_process_type E) RTE_PROC_SECONDARY);
    [|reflexivity].
  cbn. destruct (rte_ring_lookup E (get_rx_queue_name P j)); congruence.
Qed.

Lemma quiet_ring_events_primary P E l :
  rte_eal_process_type E = RTE_PROC_PRIMARY ->
  quiet (map (ring_event P E) l).
Proof.
  unfold quiet. intros H. apply Forall_map, Forall_forall. intros j _.
  unfold ring_event. now rewrite H.
Qed.

Lemma quiet_app tr1 tr2 : quiet tr1 -> quiet tr2 -> quiet (tr1 ++ tr2).
Proof. unfold quiet. intros. apply Forall_app. now split. Qed.

Lemma quiet_cons e tr : null_lookup e = false -> quiet tr -> quiet (e :: tr).
Proof. unfold quiet. intros. now constructor. Qed.

Lemma quiet_nil : quiet [].
Proof. constructor. Qed.

Ltac prove_quiet :=
  repeat first
    [ apply quiet_nil
    | apply quiet_port_events
    | apply quiet_ring_events; assumption
    | apply quiet_ring_events_primary; assumption
    | apply quiet_app
    | apply quiet_cons; [reflexivity|] ].

Lemma port_event_kind P E st j :
  is_check_links (port_event P E st j) = false /\
  is_init_port (port_event P E st j) = true.
Proof. unfold port_event. destruct (ports st); split; reflexivity. Qed.

Lemma ring_event_kind P E j :
  is_check_links (ring_event P E j) = false /\
  is_init_port (ring_event P E j) = false /\
  is_malloc (ring_event P E j) = false.
Proof.
  unfold ring_event.
  destruct (proc_type_eqb (rte_eal_process_type E) RTE_PROC_SECONDARY);
    repeat split.
Qed.

(** The trace of [init_shm_rings], whatever the outcome: the allocation,
    the calls for the queues of the clients 0 to [m-1] in order, and at
    most an exit. *)
Lemma init_shm_rings_trace P E s :
  exists m tail,
    (m <= Z.to_nat (num_clients s))%nat /\
    trace_of (init_shm_rings P E s)
      = malloc_event P E s :: map (ring_event P E) (zseq m 0) ++ tail /\
    (tail = [] \/ exists c f a, tail = [EvExit c f a]) /\
    (outcome_of (init_shm_rings P E s) = Returned 0 ->
     m = Z.to_nat (num_clients s)).
Proof.
  destruct (init_shm_rings_run P E s) as (s1 & _ & _ & _ & _ & _ & Hrun).
  destruct (malloc_result P E s).
  - destruct Hrun as [(_ & Hrun & _) | (k & Hk & _ & _ & Hrun)]; rewrite Hrun.
    + exists (Z.to_nat (num_clients s)), []. rewrite app_nil_r.
      repeat split; auto.
    + exists (S k), [ring_exit (Z.of_nat k)].
      repeat split; [lia | | discriminate].
      right. unfold ring_exit. eauto.
  - rewrite Hrun. exists O, [malloc_exit].
    repeat split; [lia | | discriminate].
    right. unfold malloc_exit. eauto.
Qed.

Lemma ring_lookups_app tr1 tr2 :
  ring_lookups (tr1 ++ tr2) = ring_lookups tr1 ++ ring_lookups tr2.
Proof. apply flat_map_app. Qed.

Lemma ring_creates_app tr1 tr2 :
  ring_creates (tr1 ++ tr2) = ring_creates tr1 ++ ring_creates tr2.
Proof. apply flat_map_app. Qed.

(** What the calls of the loop are, by role. *)
Lemma ring_events_secondary P E l :
  rte_eal_process_type E = RTE_PROC_SECONDARY ->
  ring_lookups (map (ring_event P E) l) = map (get_rx_queue_name P) l /\
  ring_creates (map (ring_event P E) l) = [].
Proof.
  intros Hrole. unfold ring_lookups, ring_creates, ring_event.
  rewrite !flat_map_map, Hrole. cbn [proc_type_eqb]. split.
  - apply flat_map_single.
  - now apply flat_map_nil.
Qed.

Lemma ring_events_primary P E l :
  rte_eal_process_type E = RTE_PROC_PRIMARY ->
  ring_lookups (map (ring_event P E) l) = [] /\
  ring_creates (map (ring_event P E) l)
    = map (fun i => (get_rx_queue_name P i, CLIENT_QUEUE_RINGSIZE,
                     rte_socket_id E,
                     Z.lor (RING_F_SP_ENQ P) (RING_F_SC_DEQ P))) l.
Proof.
  intros Hrole. unfold ring_lookups, ring_creates, ring_event.
  rewrite !flat_map_map, Hrole. cbn [proc_type_eqb]. split.
  - now apply flat_map_nil.
  - apply flat_map_single.
Qed.

Ltac simpl_filter :=
  repeat first
    [ progress cbn [filter is_check_links is_init_port is_malloc
                    malloc_event malloc_exit ring_exit port_exit app]
    | rewrite filter_app
    | rewrite (filter_map_none is_check_links (port_event _ _ _))
        by (intros; apply port_event_kind)
    | rewrite (filter_map_none is_check_links (ring_event _ _))
        by (intros; apply ring_event_kind)
    | rewrite (filter_map_none is_init_port (ring_event _ _))
        by (intros; apply ring_event_kind) ].

(** Splits a trace that ends in a call and an exit, and concludes that a
    failed lookup in it is that call. *)
Ltac split_tail l :=
  lazymatch l with
  | [?e; ?x] => constr:((@nil event, e, x))
  | ?m ++ [?e; ?x] => constr:((m, e, x))
  | ?h :: ?t =>
      let r := split_tail t in
      lazymatch r with
      | (?pre, ?e, ?x) => constr:((h :: pre, e, x))
      end
  end.

Ltac close_fatal Hin Hnull :=
  match type of Hin with
  | In ?ev ?l =>
      let r := split_tail l in
      lazymatch r with
      | (?pre, ?e, ?x) =>
          change l with (pre ++ [e; x]) in Hin |- *;
          assert (ev = e)
            by (apply (fatal_tail pre e x ev);
                [prove_quiet | reflexivity | exact Hin | exact Hnull]);
          subst ev; exists pre; eexists; eexists; reflexivity
      end
  end.

(** What kind of call the events of the two loops are. *)
Ltac event_kind :=
  intros; unfold port_event, port_ret, ring_event, ring_result in *;
  repeat match goal with
    | H : rte_eal_process_type ?E = _
      |- context [rte_eal_process_type ?E] =>
        rewrite H; cbn [proc_type_eqb]
    | |- context [match ports ?st with _ => _ end] => destruct (ports st)
    | |- context [proc_type_eqb ?a ?b] => destruct (proc_type_eqb a b)
    end;
  cbn; try reflexivity; try congruence.

(** Removes from a filtered trace the calls of the loops, none of which
    passes the filter. *)
Ltac filter_out :=
  repeat first
    [ progress cbn [filter is_exit is_lookup is_parse creates_or_configures
                    is_check_links is_init_port is_malloc
                    is_pool_call is_queue_call
                    malloc_event malloc_exit ring_exit port_exit app]
    | rewrite filter_app
    | rewrite (filter_map_none _ (port_event _ _ _)) by event_kind
    | rewrite (filter_map_none _ (ring_event _ _)) by event_kind ].

(** The same for the results read off a trace. *)
Ltac flat_out :=
  repeat first
    [ progress cbn [flat_map app malloc_event]
    | rewrite flat_map_app
    | rewrite flat_map_map; rewrite flat_map_nil by event_kind ].

(** Splits a trace at the polling of the links. *)
Ltac split_at_poll l :=
  lazymatch l with
  | EvCheckLinks _ _ _ :: ?post => constr:((@nil event, post))
  | ?m ++ EvCheckLinks _ _ _ :: ?post => constr:((m, post))
  | ?h :: ?t =>
      let r := split_at_poll t in
      lazymatch r with
      | (?pre, ?post) => constr:((h :: pre, post))
      end
  end.

(** ** Symbolic execution of [init] *)

(** Case analysis on the innermost undecided test of the goal; the loops
    and [init_shm_rings] are left to the lemmas about them. *)
Ltac break_match :=
  match goal with
  | |- context [match ?x with _ => _ end] =>
      lazymatch x with
      | context [match _ with _ => _ end] => fail
      | for_loop _ _ _ _ => fail
      | init_shm_rings _ _ _ => fail
      | _ => destruct x eqn:?
      end
  end.

(** Replaces the two loops by what the lemmas above say of them. *)
Ltac run_loops P E :=
  match goal with
  | |- context [for_loop ?n ?i (port_body P E) ?st] =>
      let q := eval cbn in (ports st) in
      lazymatch q with
      | Some ?p =>
          let Hloop := fresh "Hloop" in
          destruct (port_loop_run P E n i st p eq_refl)
            as [(?Hconf & Hloop) | (?k & ?Hk & Hloop)];
          rewrite Hloop; clear Hloop
      end
  | |- context [init_shm_rings P E ?st] =>
      let Hrings := fresh "Hrings" in
      destruct (init_shm_rings_run P E st)
        as (?s' & ?Hpool & ?Hports & ?Hnum & ?Hshm & ?Hclients & Hrings);
      destruct (malloc_result P E st) eqn:?;
      [ destruct Hrings as [(?Hall & Hrings & ?Hmem)
                           | (?k & ?Hk & ?Hall & ?Hnone & Hrings)]
      | ];
      rewrite Hrings; clear Hrings
  end.

(** Runs [init] down every path. *)
Ltac exec_init P E :=
  unfold init, bind_port_info, init_mbuf_pools;
  destruct (rte_eal_process_type E) eqn:?; cbn [proc_type_eqb];
  repeat first
    [ progress run_monad
    | rewrite upd_same
    | progress change (1 =? 0) with false
    | progress change (0 =? 0) with true
    | progress cbn [negb]
    | run_loops P E
    | break_match ].

(** ** The claims *)

(** C1, as it is stated, fails: a secondary whose bring-up succeeds has
    called [check_all_ports_link_status]. *)
Lemma secondary_polls_link_status :
  rte_eal_process_type env_secondary = RTE_PROC_SECONDARY /\
  outcome_of (init sample_platform env_secondary 3 sample_args start)
    = Returned 0 /\
  filter is_check_links
    (trace_of (init sample_platform env_secondary 3 sample_args start))
    = [EvCheckLinks (Some 4096) 2 (-1)].
Proof. vm_compute. repeat split. Qed.

(** C1, amended.  Only the configuration of the ports is reserved to the
    primary: a secondary never calls [init_port].  The link status is
    polled in every role: an execution of [init] that returns 0 has called
    [check_all_ports_link_status] exactly once, on the table behind [ports],
    for the number of ports that table holds and with the mask [~0]; the
    call comes after the binding of the pool and before the binding of the
    queues. *)
Theorem link_status_polled_in_every_role
  (P : platform) (E : environment) (argc : Z) (argv : list string)
  (s : state) :
  (outcome_of (init P E argc argv s) = Returned 0 ->
   exists pre post p,
     trace_of (init P E argc argv s)
       = pre
         ++ EvCheckLinks (Some p)
              (num_ports
                 (port_info_of_bytes P
                    (shm (state_of (init P E argc argv s)) p)))
              (Z.lnot 0)
         :: post /\
     ports (state_of (init P E argc argv s)) = Some p /\
     filter is_check_links (trace_of (init P E argc argv s))
       = [EvCheckLinks (Some p)
            (num_ports
               (port_info_of_bytes P
                  (shm (state_of (init P E argc argv s)) p)))
            (Z.lnot 0)] /\
     filter is_check_links pre = [] /\
     filter is_check_links post = [] /\
     pool_results pre = [pktmbuf_pool (state_of (init P E argc argv s))] /\
     filter is_pool_call post = [] /\
     filter is_queue_call pre = [] /\
     malloc_results post = [clients (state_of (init P E argc argv s))]) /\
  (rte_eal_process_type E = RTE_PROC_SECONDARY ->
   filter is_init_port (trace_of (init P E argc argv s)) = []).
Proof.
  unfold pool_results, malloc_results.
  remember (init P E argc argv s) as r eqn:Hr.
  symmetry in Hr. revert Hr.
  exec_init P E.
  all: intros <-; cbn [trace_of outcome_of state_of fst snd].
  all: split;
    [ intros Hret; try discriminate
    | intros Hsec; try discriminate; simpl_filter; reflexivity ].
  all: cbn [ports shm pktmbuf_pool] in Hports, Hshm, Hpool.
  all: match goal with
       | |- exists pre post p, ?l = _ /\ _ =>
           let r := split_at_poll l in
           lazymatch r with
           | (?pre, ?post) => exists pre, post
           end
       end.
  all: match goal with
       | Hp : ports _ = Some ?q |- _ => exists q
       end.
  all: rewrite Hports, Hshm, Hpool, Hclients, upd_same.
  all: split; [reflexivity|].
  all: split; [reflexivity|].
  all: split; [filter_out; reflexivity|].
  all: split; [filter_out; reflexivity|].
  all: split; [filter_out; reflexivity|].
  all: split; [flat_out; reflexivity|].
  all: split; [filter_out; reflexivity|].
  all: split; [filter_out; reflexivity|].
  all: flat_out;
    match goal with
    | H : malloc_result _ _ _ = Some _ |- _ => rewrite H
    end;
    reflexivity.
Qed.

Lemma link_status_polled_in_every_role_witness :
  (exists pre post p,
     trace_of (init sample_platform env_secondary 3 sample_args start)
       = pre
         ++ EvCheckLinks (Some p)
              (num_ports
                 (port_info_of_bytes sample_platform
                    (shm
                       (state_of
                          (init sample_platform env_secondary 3 sample_args
                             start)) p)))
              (Z.lnot 0)
         :: post /\
     ports (state_of (init sample_platform env_secondary 3 sample_args start))
       = Some p /\
     filter is_check_links
       (trace_of (init sample_platform env_secondary 3 sample_args start))
       = [EvCheckLinks (Some p)
            (num_ports
               (port_info_of_bytes sample_platform
                  (shm
                     (state_of
                        (init sample_platform env_secondary 3 sample_args
                           start)) p)))
            (Z.lnot 0)] /\
     filter is_check_links pre = [] /\
     filter is_check_links post = [] /\
     pool_results pre
       = [pktmbuf_pool
            (state_of (init sample_platform env_secondary 3 sample_args start))]
     /\
     filter is_pool_call post = [] /\
     filter is_queue_call pre = [] /\
     malloc_results post
       = [clients
            (state_of
               (init sample_platform env_secondary 3 sample_args start))])
  /\
  filter is_init_port
    (trace_of (init sample_platform env_secondary 3 sample_args start)) = [].
Proof.
  destruct (link_status_polled_in_every_role sample_platform env_secondary 3
              sample_args start) as [Hpoll Hconf].
  split; [apply Hpoll; reflexivity | apply Hconf; reflexivity].
Defined.

(** C2, as it is stated, fails: with two clients configured a secondary
    looks up the queue of client 0 and the queue of client 1, so there is
    no index of its own whose queue is the only one it looks up. *)
Lemma secondary_looks_up_every_queue :
  rte_eal_process_type env_secondary = RTE_PROC_SECONDARY /\
  ring_lookups
    (trace_of (init_shm_rings sample_platform env_secondary (bound 2 2)))
    = ["MProc_Client_0_RX"; "MProc_Client_1_RX"] /\
  ~ (exists own,
       forall name,
         In name
           (ring_lookups
              (trace_of
                 (init_shm_rings sample_platform env_secondary (bound 2 2))))
         -> name = get_rx_queue_name sample_platform own).
Proof.
  split; [reflexivity|]. split; [reflexivity|].
  intros [own Hown].
  assert (H0 := Hown "MProc_Client_0_RX" (or_introl eq_refl)).
  assert (H1 := Hown "MProc_Client_1_RX" (or_intror (or_introl eq_refl))).
  rewrite <- H1 in H0. discriminate.
Qed.

(** C2, amended.  A secondary binds the queues by looking up the queue of
    every client in turn: the names looked up are those of the indices
    [0, 1, ..., m-1] for some [m <= num_clients], with [m = num_clients]
    when the binding returns; it creates no queue. *)
Theorem secondary_looks_up_queues_in_order
  (P : platform) (E : environment) (s : state) :
  rte_eal_process_type E = RTE_PROC_SECONDARY ->
  ring_creates (trace_of (init_shm_rings P E s)) = [] /\
  exists m,
    (m <= Z.to_nat (num_clients s))%nat /\
    ring_lookups (trace_of (init_shm_rings P E s))
      = map (get_rx_queue_name P) (zseq m 0) /\
    (outcome_of (init_shm_rings P E s) = Returned 0 ->
     m = Z.to_nat (num_clients s)).
Proof.
  intros Hrole.
  destruct (init_shm_rings_trace P E s) as (m & tail & Hm & Htr & Htail & Hret).
  destruct (ring_events_secondary P E (zseq m 0) Hrole) as [Hl Hc].
  rewrite Htr.
  change (malloc_event P E s :: map (ring_event P E) (zseq m 0) ++ tail)
    with ([malloc_event P E s] ++ map (ring_event P E) (zseq m 0) ++ tail).
  rewrite !ring_creates_app, !ring_lookups_app, Hl, Hc.
  destruct Htail as [-> | (c & f & a & ->)]; cbn; rewrite ?app_nil_r;
    (split; [reflexivity | exists m; auto]).
Qed.

Lemma secondary_looks_up_queues_in_order_witness :
  ring_creates
    (trace_of (init_shm_rings sample_platform env_secondary (bound 2 2))) = []
  /\
  exists m,
    (m <= Z.to_nat (num_clients (bound 2 2)))%nat /\
    ring_lookups
      (trace_of (init_shm_rings sample_platform env_secondary (bound 2 2)))
      = map (get_rx_queue_name sample_platform) (zseq m 0) /\
    (outcome_of (init_shm_rings sample_platform env_secondary (bound 2 2))
       = Returned 0 ->
     m = Z.to_nat (num_clients (bound 2 2))).
Proof.
  apply (secondary_looks_up_queues_in_order sample_platform env_secondary
           (bound 2 2)).
  reflexivity.
Defined.

(** C3, as it is stated, fails: a secondary allocates a client block of its
    own. *)
Lemma secondary_allocates_client_block :
  rte_eal_process_type env_secondary = RTE_PROC_SECONDARY /\
  filter is_malloc
    (trace_of (init_shm_rings sample_platform env_secondary (bound 2 2)))
    = [EvMalloc "client details" 64 0 (Some 8192)] /\
  clients (state_of (init_shm_rings sample_platform env_secondary (bound 2 2)))
    = Some 8192.
Proof. vm_compute. repeat split. Qed.

(** C3, amended.  The client block is allocated by every process that binds
    the queues, primary or secondary: [init_shm_rings] starts with one
    [rte_malloc] of [num_clients] times the size of a client record, makes
    no other allocation, and leaves in [clients] what that call returned. *)
Theorem client_block_allocated_in_every_role
  (P : platform) (E : environment) (s : state) :
  exists rest,
    trace_of (init_shm_rings P E s)
      = EvMalloc "client details"
          ((sizeof_client P * num_clients s) mod SIZE_MODULUS) 0
          (rte_malloc E "client details"
             ((sizeof_client P * num_clients s) mod SIZE_MODULUS) 0)
        :: rest /\
    filter is_malloc rest = [] /\
    clients (state_of (init_shm_rings P E s))
      = rte_malloc E "client details"
          ((sizeof_client P * num_clients s) mod SIZE_MODULUS) 0.
Proof.
  destruct (init_shm_rings_trace P E s) as (m & tail & _ & Htr & Htail & _).
  exists (map (ring_event P E) (zseq m 0) ++ tail).
  split; [exact Htr|]. split.
  - rewrite filter_app, (filter_map_none is_malloc (ring_event P E))
      by (intros; apply ring_event_kind).
    destruct Htail as [-> | (c & f & a & ->)]; reflexivity.
  - destruct (init_shm_rings_run P E s) as (s1 & _ & _ & _ & _ & Hc & Hrun).
    change (rte_malloc E "client details"
              ((sizeof_client P * num_clients s) mod SIZE_MODULUS) 0)
      with (malloc_result P E s).
    destruct (malloc_result P E s).
    + destruct Hrun as [(_ & Hrun & _) | (k & _ & _ & _ & Hrun)];
        rewrite Hrun; exact Hc.
    + rewrite Hrun. exact Hc.
Qed.

(** C4, as it is stated, fails for the parsing of the application
    arguments: when [parse_app_args] fails in a primary, the port-info
    region has already been reserved. *)
Lemma parse_failure_after_region_reserved :
  outcome_of (init sample_platform env_bad_args 3 sample_args start)
    = Returned (-1) /\
  filter touches_shared
    (trace_of (init sample_platform env_bad_args 3 sample_args start))
    = [EvMemzoneReserve "MProc_port_info" 8 0 0 (Some {| addr := 4096 |})].
Proof. vm_compute. split; reflexivity. Qed.

(** C4, amended.  A failure of [rte_eal_init] makes [init] return -1 with
    no shared resource created or attached.  A failure of [parse_app_args]
    makes [init] return -1 too, after the port-info region has been
    reserved (primary) or looked up (secondary) and before the pool, the
    client block or any queue is bound: when [init] returns -1 after
    [rte_eal_init] succeeded, the binding of the region is the only such
    call made, and it did not return null. *)
Theorem environment_failure_returns_early
  (P : platform) (E : environment) (argc : Z) (argv : list string)
  (s : state) :
  (rte_eal_init E argc argv < 0 ->
   init P E argc argv s
     = ([EvEalInit argc (rte_eal_init E argc argv)], s, Returned (-1))) /\
  (0 <= rte_eal_init E argc argv ->
   forall z, port_info_zone P E = Some z ->
   parse_status P E argc argv s z <> 0 ->
   outcome_of (init P E argc argv s) = Returned (-1)) /\
  (0 <= rte_eal_init E argc argv ->
   outcome_of (init P E argc argv s) = Returned (-1) ->
   filter touches_shared (trace_of (init P E argc argv s))
     = [port_info_event P E] /\
   port_info_zone P E <> None).
Proof.
  unfold parse_status, region_at_parse, port_info_zone, port_info_event.
  remember (init P E argc argv s) as r eqn:Hr.
  symmetry in Hr. revert Hr.
  exec_init P E.
  all: intros <-; cbn [trace_of outcome_of fst snd].
  all: repeat match goal with
         | H : negb _ = true |- _ => apply negb_true_iff in H
         | H : negb _ = false |- _ => apply negb_false_iff in H
         | H : (_ <? _) = true |- _ => apply Z.ltb_lt in H
         | H : (_ <? _) = false |- _ => apply Z.ltb_ge in H
         | H : (_ =? _) = true |- _ => apply Z.eqb_eq in H
         | H : (_ =? _) = false |- _ => apply Z.eqb_neq in H
         end.
  all: split; [intros; first [lia | reflexivity]|].
  all: split;
    [ intros Heal z1 Hz Hst;
      first
        [ lia | discriminate | reflexivity
        | exfalso; injection Hz as <-;
          match goal with
          | Hp : parse_app_args _ _ _ _ _ = _ |- _ => rewrite Hp in Hst
          end;
          cbn in Hst; congruence ]
    | intros Heal Hret;
      first [lia | discriminate | split; [reflexivity | discriminate]] ].
Qed.

Lemma environment_failure_returns_early_witness :
  outcome_of (init sample_platform env_bad_args 3 sample_args start)
    = Returned (-1) /\
  filter touches_shared
    (trace_of (init sample_platform env_bad_args 3 sample_args start))
    = [port_info_event sample_platform env_bad_args] /\
  port_info_zone sample_platform env_bad_args <> None.
Proof.
  destruct (environment_failure_returns_early sample_platform env_bad_args 3
              sample_args start) as (_ & Hparse & Hearly).
  assert (Heal : 0 <= rte_eal_init env_bad_args 3 sample_args)
    by (vm_compute; discriminate).
  assert (Hret : outcome_of
                   (init sample_platform env_bad_args 3 sample_args start)
                 = Returned (-1)).
  { apply (Hparse Heal {| addr := 4096 |}); [reflexivity|].
    vm_compute. discriminate. }
  split; [exact Hret | exact (Hearly Heal Hret)].
Defined.

(** C5. Whenever a lookup of a named shared resource (the port-info region,
    the mbuf pool, a client ring) returns null, the process is a secondary
    and it ends there: the call that follows the failed lookup is
    [rte_exit(EXIT_FAILURE, ...)], and nothing comes after it. *)
Theorem secondary_null_lookup_is_fatal
  (P : platform) (E : environment) (argc : Z) (argv : list string)
  (s : state) (ev : event) :
  In ev (trace_of (init P E argc argv s)) ->
  null_lookup ev = true ->
  rte_eal_process_type E = RTE_PROC_SECONDARY /\
  outcome_of (init P E argc argv s) = Exited EXIT_FAILURE /\
  exists pre fmt args,
    trace_of (init P E argc argv s)
      = pre ++ [ev; EvExit EXIT_FAILURE fmt args].
Proof.
  remember (init P E argc argv s) as r eqn:Hr.
  symmetry in Hr. revert Hr.
  exec_init P E.
  all: intros <-; cbn [trace_of outcome_of fst snd]; intros Hin Hnull.
  all: try (exfalso; eapply quiet_no_null; [|exact Hin|exact Hnull];
            prove_quiet; fail).
  all: split; [reflexivity | split; [reflexivity|]].
  all: try (rewrite zseq_snoc, map_app, <- app_assoc in Hin |- *;
            cbn [app map] in Hin |- *).
  all: close_fatal Hin Hnull.
Qed.

Lemma secondary_null_lookup_is_fatal_witness :
  rte_eal_process_type env_no_pool = RTE_PROC_SECONDARY /\
  outcome_of (init sample_platform env_no_pool 3 sample_args start)
    = Exited EXIT_FAILURE /\
  exists pre fmt args,
    trace_of (init sample_platform env_no_pool 3 sample_args start)
      = pre ++ [EvMempoolLookup "MProc_pktmbuf_pool" None;
                EvExit EXIT_FAILURE fmt args].
Proof.
  apply (secondary_null_lookup_is_fatal sample_platform env_no_pool 3
           sample_args start (EvMempoolLookup "MProc_pktmbuf_pool" None)).
  - vm_compute. do 4 right. left. reflexivity.
  - reflexivity.
Defined.

(** The capacity a primary passes to [rte_mempool_create]: what the
    configuration asks for, as the [unsigned int] [num_mbufs] holds it. *)
Lemma pool_capacity_value
  (P : platform) (E : environment) (s : state) (p : loc) :
  rte_eal_process_type E = RTE_PROC_PRIMARY ->
  ports s = Some p ->
  mempool_capacities (trace_of (init_mbuf_pools P E s))
    = [pool_demand P (num_clients s)
         (num_ports (port_info_of_bytes P (shm s p))) mod 2 ^ 32].
Proof.
  intros Hrole Hp.
  unfold init_mbuf_pools, pool_demand. run_monad. rewrite Hp, Hrole.
  cbn [proc_type_eqb]. run_monad.
  destruct (rte_mempool_create E _ _ _ _ _ _ _); reflexivity.
Qed.



(** With counts of 16 bits and at most 2^14 buffers for each client and
    each port, the sum is always such a number. *)
Lemma pool_capacity_exact_u16
  (P : platform) (E : environment) (s : state) (p : loc) :
  rte_eal_process_type E = RTE_PROC_PRIMARY ->
  ports s = Some p ->
  0 <= MBUFS_PER_CLIENT P <= 2 ^ 14 ->
  0 <= MBUFS_PER_PORT P <= 2 ^ 14 ->
  0 <= num_clients s < 2 ^ 16 ->
  0 <= num_ports (port_info_of_bytes P (shm s p)) < 2 ^ 16 ->
  mempool_capacities (trace_of (init_mbuf_pools P E s))
    = [num_clients s * MBUFS_PER_CLIENT P
       + num_ports (port_info_of_bytes P (shm s p)) * MBUFS_PER_PORT P].
Proof.
  intros Hrole Hp Hkc Hkp Hnc Hnp.
  rewrite (pool_capacity_value P E s p Hrole Hp).
  unfold pool_demand. rewrite Z.mod_small; [reflexivity|].
  split; nia.
Qed.

(** C7, as it is stated, fails: an allocator that answers [NULL] to a
    request of zero bytes, as [rte_malloc] does, ends the process of a
    primary that has no client configured. *)
Lemma no_clients_binding_exits :
  rte_eal_process_type env_no_clients = RTE_PROC_PRIMARY /\
  num_clients (bound 0 2) = 0 /\
  trace_of (init_shm_rings sample_platform env_no_clients (bound 0 2))
    = [EvMalloc "client details" 0 0 None;
       EvExit EXIT_FAILURE
         "Cannot allocate memory for client program details\n" []] /\
  outcome_of (init_shm_rings sample_platform env_no_clients (bound 0 2))
    = Exited EXIT_FAILURE.
Proof. vm_compute. repeat split. Qed.

(** C7, amended.  With [num_clients == 0], [init_shm_rings] asks
    [rte_malloc] for zero bytes and neither creates nor looks up a queue;
    it returns 0 when that allocation returns a block, and ends the process
    with [EXIT_FAILURE] when it returns [NULL]. *)
Theorem no_clients_binding
  (P : platform) (E : environment) (s : state) :
  num_clients s = 0 ->
  trace_of (init_shm_rings P E s)
    = EvMalloc "client details" 0 0 (rte_malloc E "client details" 0 0)
      :: match rte_malloc E "client details" 0 0 with
         | Some _ => []
         | None =>
             [EvExit EXIT_FAILURE
                "Cannot allocate memory for client program details\n" []]
         end /\
  outcome_of (init_shm_rings P E s)
    = match rte_malloc E "client details" 0 0 with
      | Some _ => Returned 0
      | None => Exited EXIT_FAILURE
      end.
Proof.
  intros Hn.
  destruct (init_shm_rings_run P E s) as (s1 & _ & _ & _ & _ & _ & Hrun).
  unfold malloc_event, malloc_exit, malloc_result, malloc_size in Hrun.
  rewrite Hn, Z.mul_0_r in Hrun. change (0 mod SIZE_MODULUS) with 0 in Hrun.
  destruct (rte_malloc E "client details" 0 0).
  - destruct Hrun as [(_ & Hrun & _) | (k & Hk & _)]; [|simpl in Hk; lia].
    rewrite Hrun. split; reflexivity.
  - rewrite Hrun. split; reflexivity.
Qed.

Lemma no_clients_binding_witness :
  trace_of (init_shm_rings sample_platform env_primary (bound 0 2))
    = [EvMalloc "client details" 0 0 (Some 8192)] /\
  outcome_of (init_shm_rings sample_platform env_primary (bound 0 2))
    = Returned 0.
Proof.
  exact (no_clients_binding sample_platform env_primary (bound 0 2) eq_refl).
Defined.

(** C8. When the primary has reserved the port-info region, it sets every
    byte of it (the size of a port table) to 0 next, and the table is zero
    when [parse_app_args], which writes the port data, is called. *)
Theorem port_info_region_zeroed_before_parse
  (P : platform) (E : environment) (argc : Z) (argv : list string)
  (s : state) (z : rte_memzone) :
  rte_eal_process_type E = RTE_PROC_PRIMARY ->
  0 <= rte_eal_init E argc argv ->
  rte_memzone_reserve E (MZ_PORT_INFO P) (sizeof_port_info P)
    (rte_socket_id E) (NO_FLAGS P) = Some z ->
  exists region ret rest,
    trace_of (init P E argc argv s)
      = [EvEalInit argc (rte_eal_init E argc argv);
         EvMemzoneReserve (MZ_PORT_INFO P) (sizeof_port_info P)
           (rte_socket_id E) (NO_FLAGS P) (Some z);
         EvMemset (addr z) 0 (sizeof_port_info P);
         EvParseAppArgs (rte_eth_dev_count E)
           (argc - rte_eal_init E argc argv) region ret]
        ++ rest /\
    firstn (Z.to_nat (sizeof_port_info P)) region
      = repeat 0 (Z.to_nat (sizeof_port_info P)).
Proof.
  remember (init P E argc argv s) as r eqn:Hr.
  symmetry in Hr. revert Hr.
  exec_init P E.
  all: intros <- Hrole Heal Hz; cbn [trace_of fst].
  all: try discriminate.
  all: try (apply Z.ltb_lt in Heqb; lia).
  all: injection Hz as <-.
  all: eexists; eexists; eexists; split;
    [cbn [app]; reflexivity | apply firstn_repeat_app].
Qed.

Lemma port_info_region_zeroed_before_parse_witness :
  exists region ret rest,
    trace_of (init sample_platform env_primary 3 sample_args start)
      = [EvEalInit 3 1;
         EvMemzoneReserve "MProc_port_info" 8 0 0 (Some {| addr := 4096 |});
         EvMemset 4096 0 8;
         EvParseAppArgs 2 2 region ret]
        ++ rest /\
    firstn 8 region = repeat 0 8.
Proof.
  apply (port_info_region_zeroed_before_parse sample_platform env_primary 3
           sample_args start {| addr := 4096 |}).
  - reflexivity.
  - vm_compute. discriminate.
  - reflexivity.
Defined.

(** C9. For every [num_clients >= 1], a primary for which the allocation
    and the creations succeed creates exactly [num_clients] queues: the
    queue of client [i], for [i] from 0 to [num_clients - 1] in order, is
    a ring of 128 slots with the flags [RING_F_SP_ENQ | RING_F_SC_DEQ],
    named [get_rx_queue_name(i)]; and [init_shm_rings] returns 0. *)
Theorem primary_creates_every_queue
  (P : platform) (E : environment) (s : state) :
  rte_eal_process_type E = RTE_PROC_PRIMARY ->
  1 <= num_clients s ->
  rte_malloc E "client details"
    ((sizeof_client P * num_clients s) mod SIZE_MODULUS) 0 <> None ->
  (forall i, 0 <= i < num_clients s ->
     rte_ring_create E (get_rx_queue_name P i) 128 (rte_socket_id E)
       (Z.lor (RING_F_SP_ENQ P) (RING_F_SC_DEQ P)) <> None) ->
  outcome_of (init_shm_rings P E s) = Returned 0 /\
  ring_creates (trace_of (init_shm_rings P E s))
    = map (fun i => (get_rx_queue_name P i, 128, rte_socket_id E,
                     Z.lor (RING_F_SP_ENQ P) (RING_F_SC_DEQ P)))
        (zseq (Z.to_nat (num_clients s)) 0) /\
  Z.of_nat (List.length (ring_creates (trace_of (init_shm_rings P E s))))
    = num_clients s /\
  ring_lookups (trace_of (init_shm_rings P E s)) = [].
Proof.
  intros Hrole Hn Hmalloc Hcreate.
  destruct (init_shm_rings_run P E s) as (s1 & _ & _ & _ & _ & _ & Hrun).
  unfold malloc_result, malloc_size in Hrun.
  destruct (rte_malloc E "client details"
              ((sizeof_client P * num_clients s) mod SIZE_MODULUS) 0)
    as [a|]; [clear Hmalloc | congruence].
  destruct Hrun as [(_ & Hrun & _) | (k & Hk & _ & Hnone & _)].
  - rewrite Hrun. cbn [outcome_of trace_of fst snd].
    destruct (ring_events_primary P E (zseq (Z.to_nat (num_clients s)) 0)
                Hrole) as [Hl Hc].
    change (malloc_event P E s
              :: map (ring_event P E) (zseq (Z.to_nat (num_clients s)) 0))
      with ([malloc_event P E s]
              ++ map (ring_event P E) (zseq (Z.to_nat (num_clients s)) 0)).
    rewrite ring_creates_app, ring_lookups_app, Hl, Hc.
    cbn [ring_creates ring_lookups flat_map malloc_event app].
    repeat split.
    rewrite length_map, zseq_length. lia.
  - exfalso. apply (Hcreate (Z.of_nat k)); [lia|].
    unfold ring_result in Hnone. rewrite Hrole in Hnone. exact Hnone.
Qed.

Lemma primary_creates_every_queue_witness :
  outcome_of (init_shm_rings sample_platform env_primary (bound 2 2))
    = Returned 0 /\
  ring_creates
    (trace_of (init_shm_rings sample_platform env_primary (bound 2 2)))
    = [("MProc_Client_0_RX", 128, 0, 3); ("MProc_Client_1_RX", 128, 0, 3)] /\
  Z.of_nat
    (List.length
       (ring_creates
          (trace_of (init_shm_rings sample_platform env_primary (bound 2 2)))))
    = 2 /\
  ring_lookups
    (trace_of (init_shm_rings sample_platform env_primary (bound 2 2)))
    = [].
Proof.
  apply (primary_creates_every_queue sample_platform env_primary (bound 2 2)).
  - reflexivity.
  - vm_compute. discriminate.
  - vm_compute. discriminate.
  - intros i _. vm_compute. discriminate.
Defined.

(** C10. When [init] returns 0 the global handles are all non-null: [ports],
    [pktmbuf_pool], [clients], and [clients[i].rx_q] for every
    [i < num_clients]; and [init_shm_rings] either returns 0 or has ended
    the process with [EXIT_FAILURE]: it returns nothing else. *)
Theorem init_success_handles_non_null
  (P : platform) (E : environment) (argc : Z) (argv : list string)
  (s : state) :
  outcome_of (init P E argc argv s) = Returned 0 ->
  (ports (state_of (init P E argc argv s)) <> None /\
   pktmbuf_pool (state_of (init P E argc argv s)) <> None /\
   exists p,
     clients (state_of (init P E argc argv s)) = Some p /\
     forall i, 0 <= i < num_clients (state_of (init P E argc argv s)) ->
       exists c q,
         nth_error (client_mem (state_of (init P E argc argv s)) p)
           (Z.to_nat i) = Some c /\
         rx_q c = Some q) /\
  (forall s0,
     outcome_of (init_shm_rings P E s0) = Returned 0 \/
     outcome_of (init_shm_rings P E s0) = Exited EXIT_FAILURE).
Proof.
  intros Hret. split.
  - remember (init P E argc argv s) as r eqn:Hr.
    symmetry in Hr. revert Hr Hret.
    exec_init P E.
    all: intros <-; cbn [outcome_of state_of fst snd]; intros Hret.
    all: try discriminate.
    all: cbn [num_clients] in Hnum, Hmem, Hall.
    all: rewrite Hports, Hpool, Hclients, Hnum.
    all: split; [discriminate | split; [discriminate|]].
    all: eexists; split; [reflexivity|]; intros i Hi.
    all: exists {| rx_q := ring_result P E i |}.
    all: destruct (ring_result P E i) as [q|] eqn:Hq;
      [ exists q; split; [rewrite Hmem by assumption; now rewrite Hq
                         | reflexivity]
      | exfalso; rewrite Forall_forall in Hall; apply (Hall i);
        [apply zseq_In; cbn [num_clients]; lia | assumption] ].
  - intros s0.
    destruct (init_shm_rings_run P E s0) as (s1 & _ & _ & _ & _ & _ & Hrun).
    destruct (malloc_result P E s0).
    + destruct Hrun as [(_ & Hrun & _) | (k & _ & _ & _ & Hrun)];
        rewrite Hrun; [left | right]; reflexivity.
    + rewrite Hrun. right. reflexivity.
Qed.

Lemma init_success_handles_non_null_witness :
  (ports (state_of (init sample_platform env_secondary 3 sample_args start))
     <> None /\
   pktmbuf_pool
     (state_of (init sample_platform env_secondary 3 sample_args start))
     <> None /\
   exists p,
     clients
       (state_of (init sample_platform env_secondary 3 sample_args start))
       = Some p /\
     forall i,
       0 <= i < num_clients
                  (state_of
                     (init sample_platform env_secondary 3 sample_args start))
       ->
       exists c q,
         nth_error
           (client_mem
              (state_of
                 (init sample_platform env_secondary 3 sample_args start)) p)
           (Z.to_nat i) = Some c /\
         rx_q c = Some q) /\
  (forall s0,
     outcome_of (init_shm_rings sample_platform env_secondary s0) = Returned 0
     \/
     outcome_of (init_shm_rings sample_platform env_secondary s0)
       = Exited EXIT_FAILURE).
Proof.
  apply (init_success_handles_non_null sample_platform env_secondary 3
           sample_args start).
  reflexivity.
Defined.

(** ** Further facts

    [init] never dereferences a null pointer, and each of the three lookups
    of a secondary, when it fails, is the last call before the exit. *)

Lemma init_never_faults
  (P : platform) (E : environment) (argc : Z) (argv : list string)
  (s : state) :
  outcome_of (init P E argc argv s) <> Fault.
Proof.
  remember (init P E argc argv s) as r eqn:Hr.
  symmetry in Hr. revert Hr.
  exec_init P E.
  all: intros <-; cbn [outcome_of snd]; discriminate.
Qed.

Lemma missing_region_is_fatal
  (P : platform) (E : environment) (argc : Z) (argv : list string)
  (s : state) :
  rte_eal_process_type E = RTE_PROC_SECONDARY ->
  0 <= rte_eal_init E argc argv ->
  rte_memzone_lookup E (MZ_PORT_INFO P) = None ->
  init P E argc argv s
    = ([EvEalInit argc (rte_eal_init E argc argv);
        EvMemzoneLookup (MZ_PORT_INFO P) None;
        EvExit EXIT_FAILURE "Cannot get port info structure\n" []],
       s, Exited EXIT_FAILURE).
Proof.
  intros Hrole Heal Hmz. unfold init, bind_port_info. run_monad.
  apply Z.ltb_ge in Heal. rewrite Heal, Hrole, Hmz. reflexivity.
Qed.

Lemma missing_pool_is_fatal
  (P : platform) (E : environment) (s : state) (p : loc) :
  rte_eal_process_type E = RTE_PROC_SECONDARY ->
  ports s = Some p ->
  rte_mempool_lookup E (PKTMBUF_POOL_NAME P) = None ->
  outcome_of (init_mbuf_pools P E s) = Exited EXIT_FAILURE.
Proof.
  intros Hrole Hp Hpool. unfold init_mbuf_pools. run_monad.
  rewrite Hp, Hrole. cbn [proc_type_eqb]. run_monad. rewrite Hpool.
  reflexivity.
Qed.

Lemma missing_ring_is_fatal
  (P : platform) (E : environment) (s : state) (i : Z) :
  rte_eal_process_type E = RTE_PROC_SECONDARY ->
  0 <= i < num_clients s ->
  malloc_result P E s <> None ->
  rte_ring_lookup E (get_rx_queue_name P i) = None ->
  outcome_of (init_shm_rings P E s) = Exited EXIT_FAILURE.
Proof.
  intros Hrole Hi Hmalloc Hring.
  destruct (init_shm_rings_run P E s) as (s1 & _ & _ & _ & _ & _ & Hrun).
  destruct (malloc_result P E s); [|congruence].
  destruct Hrun as [(Hall & _) | (k & _ & _ & _ & Hrun)].
  - exfalso. rewrite Forall_forall in Hall. apply (Hall i).
    + apply zseq_In. lia.
    + unfold ring_result. now rewrite Hrole.
  - now rewrite Hrun.
Qed.

(** ** More about the bring-up

    Properties of [init], [init_mbuf_pools] and [init_shm_rings] beyond the
    claims: the outcomes, the order of the stages, what each role does and
    does not do, which calls are fatal, and what the globals hold in the
    end. *)

(** *** Lists and traces *)

Lemma silent_nil f : silent f [].
Proof. constructor. Qed.

Lemma silent_cons f e tr : f e = false -> silent f tr -> silent f (e :: tr).
Proof. unfold silent. intros. now constructor. Qed.

Lemma silent_app f tr1 tr2 :
  silent f tr1 -> silent f tr2 -> silent f (tr1 ++ tr2).
Proof. unfold silent. intros. apply Forall_app. now split. Qed.

Lemma silent_map {A} f (g : A -> event) (Q : A -> Prop) (l : list A) :
  Forall Q l -> (forall x, Q x -> f (g x) = false) -> silent f (map g l).
Proof.
  unfold silent. intros HQ H. apply Forall_map. revert HQ.
  apply Forall_impl. exact H.
Qed.

Lemma Forall_True {A} (l : list A) : Forall (fun _ => True) l.
Proof. apply Forall_forall. trivial. Qed.

Lemma silent_fatal_tail f pre e x ev :
  silent f pre -> f x = false ->
  In ev (pre ++ [e; x]) -> f ev = true -> ev = e.
Proof.
  unfold silent. rewrite Forall_forall. intros Hq Hx Hin Hn.
  apply in_app_or in Hin. destruct Hin as [Hin | [<- | [<- | []]]].
  - rewrite (Hq ev Hin) in Hn. discriminate.
  - reflexivity.
  - congruence.
Qed.

Lemma silent_no_event f tr ev : silent f tr -> In ev tr -> f ev = true -> False.
Proof.
  unfold silent. rewrite Forall_forall. intros H Hin Hn.
  rewrite (H ev Hin) in Hn. discriminate.
Qed.

Lemma filter_map_all {A B} (f : B -> bool) (g : A -> B) (l : list A) :
  (forall x, f (g x) = true) -> filter f (map g l) = map g l.
Proof.
  intros H. induction l as [|a l IH]; simpl; [reflexivity|].
  now rewrite H, IH.
Qed.

Lemma ends_with_single x : ends_with x [x].
Proof. now exists []. Qed.

Lemma ends_with_cons x e tr : ends_with x tr -> ends_with x (e :: tr).
Proof. intros [pre ->]. now exists (e :: pre). Qed.

Lemma ends_with_app x l tr : ends_with x tr -> ends_with x (l ++ tr).
Proof. intros [pre ->]. exists (l ++ pre). now rewrite app_assoc. Qed.

Lemma staged_weaken lo lo' tr :
  (lo' <= lo)%nat -> staged lo tr -> staged lo' tr.
Proof.
  destruct tr; simpl; [trivial|]. intros H [H1 H2].
  split; [lia | exact H2].
Qed.

Lemma staged_map_app {A} (g : A -> event) (k lo : nat) (l : list A) rest :
  (forall x, stage (g x) = k) -> (lo <= k)%nat -> staged k rest ->
  staged lo (map g l ++ rest).
Proof.
  intros Hk. revert lo. induction l as [|a l IH]; intros lo Hlo Hrest.
  - simpl. now apply (staged_weaken k).
  - simpl. rewrite Hk. split; [exact Hlo|]. apply IH; [lia | exact Hrest].
Qed.

Lemma staged_sorted tr : forall lo, staged lo tr -> Sorted le (map stage tr).
Proof.
  induction tr as [|e tr IH]; intros lo H; simpl.
  - constructor.
  - destruct H as [_ H]. constructor; [now apply (IH (stage e))|].
    destruct tr as [|e' tr']; simpl; constructor. now destruct H.
Qed.

Lemma stage_port_event P E st j : stage (port_event P E st j) = 6%nat.
Proof. event_kind. Qed.

Lemma stage_ring_event P E j : stage (ring_event P E j) = 8%nat.
Proof. event_kind. Qed.

Ltac prove_ends :=
  repeat first
    [ apply ends_with_single
    | apply ends_with_cons
    | apply ends_with_app ].

Ltac prove_staged :=
  repeat first
    [ exact I
    | apply (staged_map_app (port_event _ _ _) 6);
      [intros; apply stage_port_event | lia |]
    | apply (staged_map_app (ring_event _ _) 8);
      [intros; apply stage_ring_event | lia |]
    | progress cbn [staged stage malloc_event malloc_exit ring_exit
                    port_exit app]
    | split; [lia|] ].

(** *** The port loop, with what made it stop *)

Lemma port_loop_run_full P E n : forall i s p,
  ports s = Some p ->
  (Forall (fun j => port_ret P E s j = 0) (zseq n i) /\
   for_loop n i (port_body P E) s
     = (map (port_event P E s) (zseq n i), s, Returned tt))
  \/
  (exists k, (k < n)%nat /\
     Forall (fun j => port_ret P E s j = 0) (zseq k i) /\
     port_ret P E s (i + Z.of_nat k) <> 0 /\
     for_loop n i (port_body P E) s
       = (map (port_event P E s) (zseq (S k) i)
            ++ [port_exit (i + Z.of_nat k)],
          s, Exited EXIT_FAILURE)).
Proof.
  induction n as [|n IH]; intros i s p Hp.
  - left. split; [constructor | reflexivity].
  - rewrite for_loop_S, (port_body_run P E i s p Hp).
    destruct (port_ret P E s i =? 0) eqn:Hr.
    + apply Z.eqb_eq in Hr.
      destruct (IH (i + 1) s p Hp)
        as [(Hall & Hloop) | (k & Hk & Hall & Hbad & Hloop)]; rewrite Hloop.
      * left. split; [constructor; assumption | reflexivity].
      * right. exists (S k). split; [lia|].
        split; [constructor; assumption|].
        replace (i + Z.of_nat (S k)) with (i + 1 + Z.of_nat k) by lia.
        split; [exact Hbad|].
        change (zseq (S (S k)) i) with (i :: zseq (S k) (i + 1)).
        rewrite map_cons, <- app_comm_cons. reflexivity.
    + apply Z.eqb_neq in Hr. right. exists O. split; [lia|].
      split; [constructor|]. rewrite Z.add_0_r. split; [exact Hr|].
      reflexivity.
Qed.

Ltac run_loops_full P E :=
  match goal with
  | |- context [for_loop ?n ?i (port_body P E) ?st] =>
      let q := eval cbn in (ports st) in
      lazymatch q with
      | Some ?p =>
          let Hloop := fresh "Hloop" in
          destruct (port_loop_run_full P E n i st p eq_refl)
            as [(?Hconf & Hloop) | (?k & ?Hk & ?Hconf & ?Hbad & Hloop)];
          rewrite Hloop; clear Hloop
      end
  | |- context [init_shm_rings P E ?st] =>
      let Hrings := fresh "Hrings" in
      destruct (init_shm_rings_run P E st)
        as (?s' & ?Hpool & ?Hports & ?Hnum & ?Hshm & ?Hclients & Hrings);
      destruct (malloc_result P E st) eqn:?;
      [ destruct Hrings as [(?Hall & Hrings & ?Hmem)
                           | (?k & ?Hk & ?Hall & ?Hnone & Hrings)]
      | ];
      rewrite Hrings; clear Hrings
  end.

Ltac exec_init_full P E :=
  unfold init, bind_port_info, init_mbuf_pools;
  destruct (rte_eal_process_type E) eqn:?; cbn [proc_type_eqb];
  repeat first
    [ progress run_monad
    | rewrite upd_same
    | progress change (1 =? 0) with false
    | progress change (0 =? 0) with true
    | progress cbn [negb]
    | run_loops_full P E
    | break_match ].

(** Starts the execution of [init] down every path, the result named. *)
Ltac start_init P E argc argv s :=
  let r := fresh "r" in
  let Hr := fresh "Hr" in
  remember (init P E argc argv s) as r eqn:Hr;
  symmetry in Hr; revert Hr;
  exec_init_full P E;
  intros <-; cbn [trace_of outcome_of state_of fst snd].

(** *** The outcomes of [init] *)

(** [init] returns 0 or -1, or ends the process with [EXIT_FAILURE]; it
    never dereferences a null pointer.  When it returns, no exit is in the
    trace; when the process ends, the exit is in the trace once, as its last
    event. *)
Theorem init_outcomes
  (P : platform) (E : environment) (argc : Z) (argv : list string)
  (s : state) :
  well_ended (trace_of (init P E argc argv s))
    (outcome_of (init P E argc argv s)).
Proof.
  start_init P E argc argv s.
  all: unfold well_ended.
  all: try (split; [auto | filter_out; reflexivity]; fail).
  all: split; [reflexivity|]; eexists; eexists;
    (split; [filter_out; reflexivity | prove_ends]).
Qed.

(** Turns the tests on integers the execution has decided into facts. *)
Ltac decided_tests :=
  repeat match goal with
    | H : negb _ = true |- _ => apply negb_true_iff in H
    | H : negb _ = false |- _ => apply negb_false_iff in H
    | H : (_ <? _) = true |- _ => apply Z.ltb_lt in H
    | H : (_ <? _) = false |- _ => apply Z.ltb_ge in H
    | H : (_ =? _) = true |- _ => apply Z.eqb_eq in H
    | H : (_ =? _) = false |- _ => apply Z.eqb_neq in H
    end.

(** *** The roles *)

(** A secondary only attaches: it never reserves a region, never sets its
    bytes, never creates a pool or a ring and never configures a port.  A
    primary only creates: it never looks up a region, a pool or a ring. *)
Theorem roles_attach_or_create
  (P : platform) (E : environment) (argc : Z) (argv : list string)
  (s : state) :
  (rte_eal_process_type E = RTE_PROC_SECONDARY ->
   filter creates_or_configures (trace_of (init P E argc argv s)) = []) /\
  (rte_eal_process_type E = RTE_PROC_PRIMARY ->
   filter is_lookup (trace_of (init P E argc argv s)) = []).
Proof.
  start_init P E argc argv s.
  all: split; intros Hrole; try discriminate.
  all: filter_out; reflexivity.
Qed.

Lemma roles_attach_or_create_witness :
  filter creates_or_configures
    (trace_of (init sample_platform env_secondary 3 sample_args start)) = []
  /\
  filter is_lookup
    (trace_of (init sample_platform env_primary 3 sample_args start)) = [].
Proof.
  split.
  - apply (roles_attach_or_create sample_platform env_secondary 3 sample_args
             start). reflexivity.
  - apply (roles_attach_or_create sample_platform env_primary 3 sample_args
             start). reflexivity.
Defined.

(** *** The order of the stages *)

(** In every execution of [init], whatever its outcome, the calls come in
    the order of the stages: environment, port table, argument parsing,
    pool, port configuration, link polling, queues, and the exit last.  No
    call of an earlier stage follows a call of a later one. *)
Theorem init_stages_in_order
  (P : platform) (E : environment) (argc : Z) (argv : list string)
  (s : state) :
  Sorted le (map stage (trace_of (init P E argc argv s))).
Proof.
  apply (staged_sorted _ 0).
  start_init P E argc argv s.
  all: prove_staged.
Qed.

(** *** The arguments of the parser *)

(** [parse_app_args] is called at most once.  It is not called when
    [rte_eal_init] failed or the port-info region is missing; otherwise it
    gets the number of ports discovered, [argc] less what [rte_eal_init]
    consumed, and the region: zeroed in a primary, as found in a
    secondary. *)
Theorem parser_called_once
  (P : platform) (E : environment) (argc : Z) (argv : list string)
  (s : state) :
  ((rte_eal_init E argc argv < 0 \/ port_info_zone P E = None) /\
   filter is_parse (trace_of (init P E argc argv s)) = [])
  \/
  (0 <= rte_eal_init E argc argv /\
   exists z,
     port_info_zone P E = Some z /\
     filter is_parse (trace_of (init P E argc argv s))
       = [EvParseAppArgs (rte_eth_dev_count E)
            (argc - rte_eal_init E argc argv)
            (region_at_parse P E s z)
            (parse_status P E argc argv s z)]).
Proof.
  unfold parse_status, port_info_zone, region_at_parse.
  start_init P E argc argv s.
  all: decided_tests.
  all: first
    [ left; split;
      [ first [left; lia | right; reflexivity]
      | filter_out; reflexivity ]
    | right; split; [lia|]; eexists; split; [reflexivity|];
      match goal with
      | Hp : parse_app_args _ _ _ _ _ = _ |- _ => rewrite Hp
      end;
      filter_out; reflexivity ].
Qed.

(** *** The calls that are fatal *)

Lemma silent_port_events P E st l :
  Forall (fun j => port_ret P E st j = 0) l ->
  silent failed_call (map (port_event P E st) l).
Proof.
  intros H. apply (silent_map _ _ _ _ H). intros x Hx.
  unfold port_event. destruct (ports st); [|reflexivity].
  cbn. now rewrite Hx.
Qed.

Lemma silent_ring_events P E l :
  Forall (fun j => ring_result P E j <> None) l ->
  silent failed_call (map (ring_event P E) l).
Proof.
  intros H. apply (silent_map _ _ _ _ H). intros x.
  unfold ring_result, ring_event.
  destruct (proc_type_eqb (rte_eal_process_type E) RTE_PROC_SECONDARY);
    [reflexivity|].
  cbn. destruct (rte_ring_create E _ _ _ _); congruence.
Qed.

Lemma silent_ring_events_secondary P E l :
  rte_eal_process_type E = RTE_PROC_SECONDARY ->
  silent failed_call (map (ring_event P E) l).
Proof.
  intros Hrole. apply (silent_map _ _ _ _ (Forall_True l)). intros x _.
  unfold ring_event. now rewrite Hrole.
Qed.

Ltac prove_silent :=
  repeat first
    [ apply silent_nil
    | apply silent_port_events; assumption
    | apply silent_ring_events; assumption
    | apply silent_ring_events_secondary; assumption
    | apply silent_app
    | apply silent_cons;
      [ first
          [ reflexivity
          | unfold malloc_event;
            match goal with
            | H : malloc_result _ _ _ = Some _ |- _ => rewrite H
            end;
            reflexivity ]
      | ] ].

Ltac split_tail_app l :=
  lazymatch l with
  | [?e; ?x] => constr:((@nil event, e, x))
  | ?m ++ [?e; ?x] => constr:((m, e, x))
  | ?m ++ ?t =>
      let r := split_tail_app t in
      lazymatch r with
      | (?pre, ?e, ?x) => constr:((m ++ pre, e, x))
      end
  | ?h :: ?t =>
      let r := split_tail_app t in
      lazymatch r with
      | (?pre, ?e, ?x) => constr:((h :: pre, e, x))
      end
  end.

Ltac close_failed Hin Hbad :=
  match type of Hin with
  | In ?ev ?l =>
      let r := split_tail_app l in
      lazymatch r with
      | (?pre, ?e, ?x) =>
          let Hsplit := fresh "Hsplit" in
          assert (Hsplit : l = pre ++ [e; x])
            by (repeat first [progress cbn [app] | rewrite <- app_assoc];
                reflexivity);
          rewrite Hsplit in Hin |- *; clear Hsplit;
          assert (ev = e)
            by (apply (silent_fatal_tail failed_call pre e x ev);
                [prove_silent | reflexivity | exact Hin | exact Hbad]);
          subst ev; exists pre; eexists; eexists; reflexivity
      end
  end.

(** A creation or an allocation that returns [NULL] (the reserve of the
    region, the creation of the pool or of a ring, the allocation of the
    client block) and a port configuration that returns non-zero are fatal:
    the call that follows is [rte_exit(EXIT_FAILURE, ...)], and nothing
    comes after it. *)
Theorem failed_call_is_fatal
  (P : platform) (E : environment) (argc : Z) (argv : list string)
  (s : state) (ev : event) :
  In ev (trace_of (init P E argc argv s)) ->
  failed_call ev = true ->
  outcome_of (init P E argc argv s) = Exited EXIT_FAILURE /\
  exists pre fmt args,
    trace_of (init P E argc argv s)
      = pre ++ [ev; EvExit EXIT_FAILURE fmt args].
Proof.
  start_init P E argc argv s.
  all: intros Hin Hfailed.
  all: try (exfalso; eapply silent_no_event; [|exact Hin|exact Hfailed];
            prove_silent; fail).
  all: split; [reflexivity|].
  all: try (rewrite zseq_snoc, map_app, <- app_assoc in Hin |- *;
            cbn [app map] in Hin |- *).
  all: close_failed Hin Hfailed.
Qed.

Lemma failed_call_is_fatal_witness :
  outcome_of (init sample_platform env_no_clients 3 sample_args start)
    = Exited EXIT_FAILURE /\
  exists pre fmt args,
    trace_of (init sample_platform env_no_clients 3 sample_args start)
      = pre ++ [EvMalloc "client details" 0 0 None;
                EvExit EXIT_FAILURE fmt args].
Proof.
  apply (failed_call_is_fatal sample_platform env_no_clients 3 sample_args
           start (EvMalloc "client details" 0 0 None)).
  - vm_compute. do 9 right. left. reflexivity.
  - reflexivity.
Defined.

(** *** What a successful bring-up leaves *)

(** When [init] returns 0 every global holds the handle the facility
    returned: [ports] the address of the region reserved or looked up,
    [pktmbuf_pool] the result of the one pool call, [clients] the result of
    the one allocation, and [clients[i].rx_q], for every
    [i < num_clients], the ring created or looked up under
    [get_rx_queue_name(i)]. *)
Theorem globals_hold_what_was_obtained
  (P : platform) (E : environment) (argc : Z) (argv : list string)
  (s : state) :
  outcome_of (init P E argc argv s) = Returned 0 ->
  ports (state_of (init P E argc argv s))
    = option_map addr (port_info_zone P E) /\
  pool_results (trace_of (init P E argc argv s))
    = [pktmbuf_pool (state_of (init P E argc argv s))] /\
  malloc_results (trace_of (init P E argc argv s))
    = [clients (state_of (init P E argc argv s))] /\
  exists p,
    clients (state_of (init P E argc argv s)) = Some p /\
    forall i, 0 <= i < num_clients (state_of (init P E argc argv s)) ->
      nth_error (client_mem (state_of (init P E argc argv s)) p) (Z.to_nat i)
        = Some {| rx_q := ring_result P E i |}.
Proof.
  unfold port_info_zone, pool_results, malloc_results.
  start_init P E argc argv s.
  all: intros Hret; try discriminate.
  all: cbn [num_clients] in Hnum, Hmem.
  all: rewrite Hports, Hpool, Hclients, Hnum.
  all: split; [reflexivity|].
  all: split; [flat_out; reflexivity|].
  all: split;
    [ flat_out;
      match goal with
      | H : malloc_result _ _ _ = Some _ |- _ => rewrite H
      end;
      reflexivity |].
  all: eexists; split; [reflexivity | exact Hmem].
Qed.

Lemma globals_hold_what_was_obtained_witness :
  ports (state_of (init sample_platform env_primary 3 sample_args start))
    = option_map addr (port_info_zone sample_platform env_primary) /\
  pool_results (trace_of (init sample_platform env_primary 3 sample_args start))
    = [pktmbuf_pool
         (state_of (init sample_platform env_primary 3 sample_args start))] /\
  malloc_results
    (trace_of (init sample_platform env_primary 3 sample_args start))
    = [clients
         (state_of (init sample_platform env_primary 3 sample_args start))] /\
  exists p,
    clients (state_of (init sample_platform env_primary 3 sample_args start))
      = Some p /\
    forall i,
      0 <= i < num_clients
                 (state_of
                    (init sample_platform env_primary 3 sample_args start)) ->
      nth_error
        (client_mem
           (state_of (init sample_platform env_primary 3 sample_args start))
           p)
        (Z.to_nat i)
        = Some {| rx_q := ring_result sample_platform env_primary i |}.
Proof.
  apply (globals_hold_what_was_obtained sample_platform env_primary 3
           sample_args start).
  reflexivity.
Defined.

(** When [init] returns 0 the port table and [num_clients] are as
    [parse_app_args] left them: what the parser returned is 0, the bytes
    now behind [ports] and the value now in [num_clients].  Nothing that
    follows the parser writes them. *)
Theorem port_table_as_parsed
  (P : platform) (E : environment) (argc : Z) (argv : list string)
  (s : state) :
  outcome_of (init P E argc argv s) = Returned 0 ->
  exists z,
    port_info_zone P E = Some z /\
    ports (state_of (init P E argc argv s)) = Some (addr z) /\
    parse_app_args E (rte_eth_dev_count E) (argc - rte_eal_init E argc argv)
      (skipn (Z.to_nat (rte_eal_init E argc argv)) argv)
      (region_at_parse P E s z)
      = (0, shm (state_of (init P E argc argv s)) (addr z),
         num_clients (state_of (init P E argc argv s))).
Proof.
  unfold port_info_zone, region_at_parse.
  start_init P E argc argv s.
  all: intros Hret; try discriminate.
  all: cbn [num_clients shm ports] in Hnum, Hshm, Hports.
  all: decided_tests;
    match goal with
    | H : ?v = 0, Hp : parse_app_args _ _ _ _ _ = (?v, _, _) |- _ => subst v
    end.
  all: eexists; split; [reflexivity|].
  all: rewrite Hports, Hshm, Hnum, upd_same.
  all: split; [reflexivity | assumption].
Qed.

Lemma port_table_as_parsed_witness :
  exists z,
    port_info_zone sample_platform env_secondary = Some z /\
    ports (state_of (init sample_platform env_secondary 3 sample_args start))
      = Some (addr z) /\
    parse_app_args env_secondary (rte_eth_dev_count env_secondary)
      (3 - rte_eal_init env_secondary 3 sample_args)
      (skipn (Z.to_nat (rte_eal_init env_secondary 3 sample_args)) sample_args)
      (region_at_parse sample_platform env_secondary start z)
      = (0,
         shm (state_of (init sample_platform env_secondary 3 sample_args start))
           (addr z),
         num_clients
           (state_of (init sample_platform env_secondary 3 sample_args start))).
Proof.
  apply (port_table_as_parsed sample_platform env_secondary 3 sample_args
           start).
  reflexivity.
Defined.

(** When the [init] of a primary returns 0, [init_port] has been called
    once for each of the [num_ports] entries of the table, in the order of
    the table, with the pool as its buffer source, and every call returned
    0. *)
Theorem primary_configures_every_port
  (P : platform) (E : environment) (argc : Z) (argv : list string)
  (s : state) :
  rte_eal_process_type E = RTE_PROC_PRIMARY ->
  outcome_of (init P E argc argv s) = Returned 0 ->
  exists p,
    ports (state_of (init P E argc argv s)) = Some p /\
    filter is_init_port (trace_of (init P E argc argv s))
      = map (fun j =>
               EvInitPort
                 (nth (Z.to_nat j)
                    (id (port_info_of_bytes P
                           (shm (state_of (init P E argc argv s)) p)))
                    0)
                 (pktmbuf_pool (state_of (init P E argc argv s))) 0)
          (zseq (Z.to_nat
                   (num_ports
                      (port_info_of_bytes P
                         (shm (state_of (init P E argc argv s)) p))))
             0).
Proof.
  start_init P E argc argv s.
  all: intros Hrole Hret; try discriminate.
  cbn [shm ports pktmbuf_pool] in Hshm, Hports, Hpool.
  eexists. split; [exact Hports|].
  rewrite Hshm, Hpool, upd_same.
  repeat first
    [ progress cbn [filter is_init_port malloc_event app]
    | rewrite filter_app
    | rewrite (filter_map_all is_init_port (port_event _ _ _)) by event_kind
    | rewrite (filter_map_none is_init_port (ring_event _ _)) by event_kind ].
  rewrite app_nil_r.
  apply map_ext_in. intros j Hj.
  rewrite Forall_forall in Hconf. specialize (Hconf j Hj).
  unfold port_event. unfold port_ret in Hconf |- *.
  cbn [ports shm pktmbuf_pool] in Hconf |- *.
  rewrite upd_same in Hconf |- *. now rewrite Hconf.
Qed.

Lemma primary_configures_every_port_witness :
  exists p,
    ports (state_of (init sample_platform env_primary 3 sample_args start))
      = Some p /\
    filter is_init_port
      (trace_of (init sample_platform env_primary 3 sample_args start))
      = map (fun j =>
               EvInitPort
                 (nth (Z.to_nat j)
                    (id (port_info_of_bytes sample_platform
                           (shm
                              (state_of
                                 (init sample_platform env_primary 3
                                    sample_args start)) p)))
                    0)
                 (pktmbuf_pool
                    (state_of
                       (init sample_platform env_primary 3 sample_args start)))
                 0)
          (zseq (Z.to_nat
                   (num_ports
                      (port_info_of_bytes sample_platform
                         (shm
                            (state_of
                               (init sample_platform env_primary 3
                                  sample_args start)) p))))
             0).
Proof.
  apply (primary_configures_every_port sample_platform env_primary 3
           sample_args start); reflexivity.
Defined.

(** When [init] returns 0, in either role, the link status has been polled
    on the table behind [ports], for the number of ports that table holds,
    with a mask that has every bit set. *)
Theorem links_polled_on_published_table
  (P : platform) (E : environment) (argc : Z) (argv : list string)
  (s : state) :
  outcome_of (init P E argc argv s) = Returned 0 ->
  exists p mask,
    ports (state_of (init P E argc argv s)) = Some p /\
    filter is_check_links (trace_of (init P E argc argv s))
      = [EvCheckLinks (Some p)
           (num_ports
              (port_info_of_bytes P
                 (shm (state_of (init P E argc argv s)) p)))
           mask] /\
    forall k, 0 <= k -> Z.testbit mask k = true.
Proof.
  start_init P E argc argv s.
  all: intros Hret; try discriminate.
  all: cbn [shm ports] in Hshm, Hports.
  all: eexists; exists (Z.lnot 0); split; [exact Hports|].
  all: rewrite Hshm, upd_same.
  all: split; [filter_out; reflexivity|].
  all: intros k Hk; change (Z.lnot 0) with (-1); now apply Z.bits_m1.
Qed.

Lemma links_polled_on_published_table_witness :
  exists p mask,
    ports (state_of (init sample_platform env_secondary 3 sample_args start))
      = Some p /\
    filter is_check_links
      (trace_of (init sample_platform env_secondary 3 sample_args start))
      = [EvCheckLinks (Some p)
           (num_ports
              (port_info_of_bytes sample_platform
                 (shm
                    (state_of
                       (init sample_platform env_secondary 3 sample_args
                          start)) p)))
           mask] /\
    forall k, 0 <= k -> Z.testbit mask k = true.
Proof.
  apply (links_polled_on_published_table sample_platform env_secondary 3
           sample_args start).
  reflexivity.
Defined.

(** *** Progress *)

(** When every call [init] makes succeeds, [init] returns 0: it is enough
    that [rte_eal_init] does not fail, that the region is obtained, that the
    arguments parse, that the pool is obtained for the capacity asked, that
    the ports of the table configure with that pool, that the client block
    is allocated for the clients configured and that the ring of each of
    them is obtained.  Nothing is asked of the collaborators on other
    inputs. *)
Theorem bring_up_succeeds
  (P : platform) (E : environment) (argc : Z) (argv : list string)
  (s : state) (z : rte_memzone) (bytes : list Z) (n : Z) (mp : rte_mempool) :
  0 <= rte_eal_init E argc argv ->
  port_info_zone P E = Some z ->
  parse_app_args E (rte_eth_dev_count E) (argc - rte_eal_init E argc argv)
    (skipn (Z.to_nat (rte_eal_init E argc argv)) argv)
    (region_at_parse P E s z) = (0, bytes, n) ->
  (rte_eal_process_type E = RTE_PROC_SECONDARY ->
   rte_mempool_lookup E (PKTMBUF_POOL_NAME P) = Some mp) ->
  (rte_eal_process_type E = RTE_PROC_PRIMARY ->
   rte_mempool_create E (PKTMBUF_POOL_NAME P)
     ((n * MBUFS_PER_CLIENT P
       + num_ports (port_info_of_bytes P bytes) * MBUFS_PER_PORT P)
      mod 2 ^ 32)
     (MBUF_SIZE P) (MBUF_CACHE_SIZE P) (sizeof_pktmbuf_pool_private P)
     (rte_socket_id E) (NO_FLAGS P) = Some mp) ->
  (rte_eal_process_type E = RTE_PROC_PRIMARY ->
   forall j, 0 <= j < num_ports (port_info_of_bytes P bytes) ->
     init_port E (nth (Z.to_nat j) (id (port_info_of_bytes P bytes)) 0)
       (Some mp) = 0) ->
  rte_malloc E "client details" ((sizeof_client P * n) mod 2 ^ 64) 0
    <> None ->
  (forall i, 0 <= i < n -> ring_result P E i <> None) ->
  outcome_of (init P E argc argv s) = Returned 0.
Proof.
  unfold port_info_zone, region_at_parse.
  start_init P E argc argv s.
  all: intros Heal Hz Hparse Hlook Hcreate Hport Hmalloc Hring.
  all: try reflexivity.
  all: exfalso; decided_tests; unfold UINT_MODULUS, SIZE_MODULUS in *.
  all: try lia.
  all: try discriminate.
  all: injection Hz as <-.
  all: match goal with
       | Hp : parse_app_args _ _ _ _ _ = (_, _, _) |- _ =>
           rewrite Hp in Hparse; injection Hparse as -> -> ->
       end.
  all: try congruence.
  all: try (specialize (Hlook eq_refl); congruence).
  all: try (specialize (Hcreate eq_refl); congruence).
  all: try (apply (Hring (Z.of_nat k)); [cbn [num_clients] in Hk; lia|];
            exact Hnone).
  all: try (apply Hmalloc; exact Heqo1).
  all: specialize (Hcreate eq_refl); specialize (Hport eq_refl).
  all: apply Hbad; unfold port_ret; cbn [ports shm pktmbuf_pool].
  all: rewrite upd_same.
  all: replace r1 with mp by congruence.
  all: apply Hport; lia.
Qed.

Lemma bring_up_succeeds_witness :
  outcome_of (init sample_platform env_strict_malloc 3 sample_args start)
    = Returned 0.
Proof.
  apply (bring_up_succeeds sample_platform env_strict_malloc 3 sample_args
           start {| addr := 4096 |} [2; 0; 0; 1] 2 (Mempool 1)).
  - vm_compute. discriminate.
  - reflexivity.
  - reflexivity.
  - intros. reflexivity.
  - intros. reflexivity.
  - intros. reflexivity.
  - vm_compute. discriminate.
  - intros. vm_compute. discriminate.
Defined.

(** *** The binding of the queues *)

(** Of the globals, [init_shm_rings] assigns [clients] only: whatever its
    outcome, [pktmbuf_pool], [ports] and [num_clients] hold afterwards what
    they held before. *)
Theorem queue_binding_frame
  (P : platform) (E : environment) (s : state) :
  pktmbuf_pool (state_of (init_shm_rings P E s)) = pktmbuf_pool s /\
  ports (state_of (init_shm_rings P E s)) = ports s /\
  num_clients (state_of (init_shm_rings P E s)) = num_clients s.
Proof.
  destruct (init_shm_rings_run P E s)
    as (s1 & Hpool & Hports & Hnum & _ & _ & Hrun).
  destruct (malloc_result P E s).
  - destruct Hrun as [(_ & Hrun & _) | (k & _ & _ & _ & Hrun)];
      rewrite Hrun; repeat split; assumption.
  - rewrite Hrun. repeat split; assumption.
Qed.

Lemma init_shm_rings_returned P E s :
  outcome_of (init_shm_rings P E s) = Returned 0 ->
  trace_of (init_shm_rings P E s)
    = malloc_event P E s
      :: map (ring_event P E) (zseq (Z.to_nat (num_clients s)) 0).
Proof.
  destruct (init_shm_rings_run P E s) as (s1 & _ & _ & _ & _ & _ & Hrun).
  destruct (malloc_result P E s).
  - destruct Hrun as [(_ & Hrun & _) | (k & _ & _ & _ & Hrun)];
      rewrite Hrun; [reflexivity | discriminate].
  - rewrite Hrun. discriminate.
Qed.

(** A secondary that binds the queues looks up exactly the names under
    which a primary configured for as many clients created them, in the
    same order. *)
Theorem secondary_looks_up_what_primary_creates
  (P : platform) (E1 E2 : environment) (s1 s2 : state) :
  rte_eal_process_type E1 = RTE_PROC_PRIMARY ->
  rte_eal_process_type E2 = RTE_PROC_SECONDARY ->
  num_clients s1 = num_clients s2 ->
  outcome_of (init_shm_rings P E1 s1) = Returned 0 ->
  outcome_of (init_shm_rings P E2 s2) = Returned 0 ->
  ring_lookups (trace_of (init_shm_rings P E2 s2))
    = map (fun c => fst (fst (fst c)))
        (ring_creates (trace_of (init_shm_rings P E1 s1))).
Proof.
  intros Hprim Hsec Hn Hret1 Hret2.
  rewrite (init_shm_rings_returned P E1 s1 Hret1).
  rewrite (init_shm_rings_returned P E2 s2 Hret2).
  change (ring_lookups
            (malloc_event P E2 s2
               :: map (ring_event P E2) (zseq (Z.to_nat (num_clients s2)) 0)))
    with (ring_lookups
            (map (ring_event P E2) (zseq (Z.to_nat (num_clients s2)) 0))).
  change (ring_creates
            (malloc_event P E1 s1
               :: map (ring_event P E1) (zseq (Z.to_nat (num_clients s1)) 0)))
    with (ring_creates
            (map (ring_event P E1) (zseq (Z.to_nat (num_clients s1)) 0))).
  destruct (ring_events_secondary P E2 (zseq (Z.to_nat (num_clients s2)) 0)
              Hsec) as [-> _].
  destruct (ring_events_primary P E1 (zseq (Z.to_nat (num_clients s1)) 0)
              Hprim) as [_ ->].
  rewrite map_map, Hn. reflexivity.
Qed.

Lemma secondary_looks_up_what_primary_creates_witness :
  ring_lookups
    (trace_of (init_shm_rings sample_platform env_secondary (bound 2 2)))
  = map (fun c => fst (fst (fst c)))
      (ring_creates
         (trace_of (init_shm_rings sample_platform env_primary (bound 2 2)))).
Proof.
  apply (secondary_looks_up_what_primary_creates sample_platform env_primary
           env_secondary (bound 2 2) (bound 2 2)); reflexivity.
Defined.

(** When the client block has been allocated and [init_shm_rings] does not
    return, the process has ended at the first client whose queue the
    facility refused: the queues of the clients before it were obtained, no
    queue after it was asked for, and the exit names that client. *)
Theorem first_missing_queue_reported
  (P : platform) (E : environment) (s : state) :
  malloc_result P E s <> None ->
  outcome_of (init_shm_rings P E s) <> Returned 0 ->
  exists k,
    0 <= k < num_clients s /\
    ring_result P E k = None /\
    (forall j, 0 <= j < k -> ring_result P E j <> None) /\
    outcome_of (init_shm_rings P E s) = Exited EXIT_FAILURE /\
    trace_of (init_shm_rings P E s)
      = malloc_event P E s
        :: map (ring_event P E) (zseq (Z.to_nat k) 0)
        ++ [ring_event P E k;
            EvExit EXIT_FAILURE
              "Cannot create rx ring queue for client %u\n" [k]].
Proof.
  intros Hmalloc Hret.
  destruct (init_shm_rings_run P E s) as (s1 & _ & _ & _ & _ & _ & Hrun).
  destruct (malloc_result P E s); [|congruence].
  destruct Hrun as [(_ & Hrun & _) | (k & Hk & Hall & Hnone & Hrun)].
  - rewrite Hrun in Hret. now elim Hret.
  - exists (Z.of_nat k). rewrite Hrun, Nat2Z.id.
    split; [lia|]. split; [exact Hnone|]. split.
    + intros j Hj. rewrite Forall_forall in Hall. apply Hall.
      apply zseq_In. lia.
    + split; [reflexivity|]. cbn [trace_of fst].
      rewrite zseq_snoc, map_app, <- app_assoc. reflexivity.
Qed.

Lemma first_missing_queue_reported_witness :
  exists k,
    0 <= k < 2 /\
    ring_result sample_platform env_missing_ring k = None /\
    outcome_of (init_shm_rings sample_platform env_missing_ring (bound 2 2))
      = Exited EXIT_FAILURE.
Proof.
  destruct (first_missing_queue_reported sample_platform env_missing_ring
              (bound 2 2))
    as (k & Hk & Hnone & _ & Hout & _).
  - vm_compute. discriminate.
  - vm_compute. discriminate.
  - exists k. split; [exact Hk|]. split; [exact Hnone | exact Hout].
Defined.

(** *** The binding of the pool *)

(** With the port table bound, [init_mbuf_pools] returns 0 if and only if
    it leaves a pool in [pktmbuf_pool].  When there is none, a primary
    returns 1 and a secondary has ended the process: a secondary never
    returns 1.  In every case only [pktmbuf_pool] is written. *)
Theorem pool_binding_result
  (P : platform) (E : environment) (s : state) (p : loc) :
  ports s = Some p ->
  ((outcome_of (init_mbuf_pools P E s) = Returned 0 /\
    pktmbuf_pool (state_of (init_mbuf_pools P E s)) <> None)
   \/
   (outcome_of (init_mbuf_pools P E s) = Returned 1 /\
    pktmbuf_pool (state_of (init_mbuf_pools P E s)) = None /\
    rte_eal_process_type E = RTE_PROC_PRIMARY)
   \/
   (outcome_of (init_mbuf_pools P E s) = Exited EXIT_FAILURE /\
    pktmbuf_pool (state_of (init_mbuf_pools P E s)) = None /\
    rte_eal_process_type E = RTE_PROC_SECONDARY)) /\
  clients (state_of (init_mbuf_pools P E s)) = clients s /\
  ports (state_of (init_mbuf_pools P E s)) = ports s /\
  num_clients (state_of (init_mbuf_pools P E s)) = num_clients s /\
  shm (state_of (init_mbuf_pools P E s)) = shm s /\
  client_mem (state_of (init_mbuf_pools P E s)) = client_mem s.
Proof.
  intros Hp. unfold init_mbuf_pools. run_monad. rewrite Hp.
  destruct (rte_eal_process_type E) eqn:Hrole; cbn [proc_type_eqb];
    run_monad.
  - destruct (rte_mempool_create E _ _ _ _ _ _ _); run_monad;
      cbn [outcome_of state_of fst snd pktmbuf_pool clients ports num_clients
           shm client_mem];
      (split; [|repeat split; congruence]).
    + left. split; [reflexivity | discriminate].
    + right. left. repeat split.
  - destruct (rte_mempool_lookup E _); run_monad;
      cbn [outcome_of state_of fst snd pktmbuf_pool clients ports num_clients
           shm client_mem];
      (split; [|repeat split; congruence]).
    + left. split; [reflexivity | discriminate].
    + right. right. repeat split.
Qed.

Lemma pool_binding_result_witness :
  outcome_of (init_mbuf_pools sample_platform env_no_pool (bound 2 2))
    = Exited EXIT_FAILURE /\
  outcome_of (init_mbuf_pools sample_platform env_pool_refused (bound 2 2))
    = Returned 1.
Proof.
  split.
  - destruct (pool_binding_result sample_platform env_no_pool (bound 2 2)
                4096 eq_refl)
      as [[(H & _) | [(_ & _ & H) | (H & _)]] _];
      [vm_compute in H; discriminate | discriminate H | exact H].
  - destruct (pool_binding_result sample_platform env_pool_refused
                (bound 2 2) 4096 eq_refl)
      as [[(H & _) | [(H & _) | (_ & _ & H)]] _];
      [vm_compute in H; discriminate | exact H | discriminate H].
Defined.
